(** * Continuity Index v2.0 toolkit ([CIv2.py]): a shallow embedding

    The toolkit is four pure methods of [ContinuityIndexToolkit]:
    [calculate_ci], [interpret_ci_minimal], [classify_regime] and
    [explain_regime].  Their arguments are Python objects; the numeric ones are
    Python [int] (unbounded), [bool] (a subclass of [int]) and [float]
    (IEEE 754 binary64).  Floats are modelled with the executable IEEE
    specification [SpecFloat] at precision 53 and maximal exponent 1024, so
    that rounding, overflow to infinity, underflow to zero, signed zeros and
    NaN are all present in the model, and every definition below computes. *)

From Stdlib Require Import ZArith Bool List String Lia.
From Stdlib Require Import Floats.SpecFloat.
Import ListNotations.

Local Open Scope string_scope.
Local Open Scope Z_scope.

(** ** Python exceptions and fallible computations

    [ValueError] is the only exception the toolkit raises itself, and it
    carries the message built by the source.  The other three are raised by
    the interpreter's arithmetic; their texts differ between interpreter
    versions and are left out. *)

Inductive exn : Type :=
| ValueError (msg : string)
| OverflowError
| ZeroDivisionError
| TypeError.

Inductive result (A : Type) : Type :=
| Ok (a : A)
| Raise (e : exn).

Arguments Ok {A} a.
Arguments Raise {A} e.

Definition bind {A B : Type} (c : result A) (k : A -> result B) : result B :=
  match c with
  | Ok a => k a
  | Raise e => Raise e
  end.

Notation "x <- c ;; k" := (bind c (fun x => k))
  (at level 61, c at next level, right associativity).

(** ** Binary64 floats *)

Module F64.

Definition float : Type := spec_float.

Definition prec : Z := 53.
Definition emax : Z := 1024.

(** IEEE multiplication and division, rounded to nearest, ties to even.
    [spec_float] has one NaN: the sign bit and the payload of a NaN are
    not represented, so a NaN result is known to be a NaN, not which one. *)
Definition mul : float -> float -> float := SFmul prec emax.
Definition div : float -> float -> float := SFdiv prec emax.

Definition nan : float := S754_nan.
Definition pos_inf : float := S754_infinity false.
Definition neg_inf : float := S754_infinity true.

Definition is_nan (x : float) : bool :=
  match x with S754_nan => true | _ => false end.

Definition is_inf (x : float) : bool :=
  match x with S754_infinity _ => true | _ => false end.

Definition is_zero (x : float) : bool :=
  match x with S754_zero _ => true | _ => false end.

(** Neither an infinity nor NaN. *)
Definition is_finite (x : float) : bool :=
  match x with
  | S754_zero _ | S754_finite _ _ _ => true
  | S754_infinity _ | S754_nan => false
  end.

(** [float(n)] for an integer [n]: the nearest double, ties to even;
    infinite when [n] is beyond the largest double. *)
Definition of_Z (n : Z) : float := binary_normalize prec emax n 0 false.

(** The double denoted by a positive decimal literal whose value is the
    fraction [p / q]: literals are read with correct rounding, so it is the
    quotient of the two integers rounded once, to nearest, ties to even. *)
Definition of_ratio (p q : positive) : float :=
  div (S754_finite false p 0) (S754_finite false q 0).

(** Exact comparison of a float with an integer, as Python's mixed
    [float]/[int] comparison does it: [None] is "unordered" (NaN).  The
    value of [S754_finite s m e] is [m * 2 ^ e], negated when [s] is set; it
    is compared with [n] after both sides are scaled by the power of two
    that makes them integers. *)
Definition cmp_Z (x : float) (n : Z) : option comparison :=
  match x with
  | S754_nan => None
  | S754_infinity s => Some (if s then Lt else Gt)
  | S754_zero _ => Some (0 ?= n)
  | S754_finite s m e =>
      let mz := if s then Zneg m else Zpos m in
      match e with
      | Zneg p => Some (mz ?= n * 2 ^ Zpos p)
      | _ => Some (mz * 2 ^ e ?= n)
      end
  end.

End F64.

(** ** Python objects and the numeric tower *)

(** The objects a caller can pass.  [PyStr] and [PyNone] stand for the
    objects that are instances of neither [int] nor [float]. *)
Inductive pyobj : Type :=
| PyInt (n : Z)
| PyBool (b : bool)
| PyFloat (x : F64.float)
| PyStr (s : string)
| PyNone.

(** A number as arithmetic sees it: an unbounded integer or a double. *)
Inductive num : Type :=
| NInt (n : Z)
| NFloat (x : F64.float).

(** The numeric value of an instance of [int] or [float]; [bool] is a
    subclass of [int] with [True = 1] and [False = 0]. *)
Definition as_num (o : pyobj) : option num :=
  match o with
  | PyInt n => Some (NInt n)
  | PyBool b => Some (NInt (if b then 1 else 0))
  | PyFloat x => Some (NFloat x)
  | PyStr _ | PyNone => None
  end.

(** [isinstance(o, (int, float))] *)
Definition isinstance_int_float (o : pyobj) : bool :=
  match as_num o with
  | Some _ => true
  | None => false
  end.

(** Comparison of a number with an integer literal. *)
Definition num_cmp (v : num) (k : Z) : option comparison :=
  match v with
  | NInt n => Some (n ?= k)
  | NFloat x => F64.cmp_Z x k
  end.

(** [v < k], [v == k], [v > k], [v >= k]: false when unordered. *)
Definition num_lt (v : num) (k : Z) : bool :=
  match num_cmp v k with Some Lt => true | _ => false end.

Definition num_eq (v : num) (k : Z) : bool :=
  match num_cmp v k with Some Eq => true | _ => false end.

Definition num_gt (v : num) (k : Z) : bool :=
  match num_cmp v k with Some Gt => true | _ => false end.

Definition num_ge (v : num) (k : Z) : bool :=
  match num_cmp v k with Some Gt | Some Eq => true | _ => false end.

(** The coercion of an operand to [float] in mixed arithmetic: an [int]
    beyond the range of doubles raises [OverflowError]. *)
Definition to_float (v : num) : result F64.float :=
  match v with
  | NFloat x => Ok x
  | NInt n =>
      let y := F64.of_Z n in
      if F64.is_inf y then Raise OverflowError else Ok y
  end.

(** [a * b]: exact on two integers, IEEE multiplication otherwise. *)
Definition num_mul (a b : num) : result num :=
  match a, b with
  | NInt m, NInt n => Ok (NInt (m * n))
  | _, _ =>
      x <- to_float a ;;
      y <- to_float b ;;
      Ok (NFloat (F64.mul x y))
  end.

(** [a / b] on two integers: the correctly rounded quotient, or
    [OverflowError] when it is beyond the range of doubles. *)
Definition int_truediv (a b : Z) : result F64.float :=
  if b =? 0 then Raise ZeroDivisionError
  else if a =? 0 then Ok (S754_zero (b <? 0))
  else
    let q := F64.div (S754_finite (a <? 0) (Z.to_pos (Z.abs a)) 0)
                     (S754_finite (b <? 0) (Z.to_pos (Z.abs b)) 0) in
    if F64.is_inf q then Raise OverflowError else Ok q.

(** [a / b]: always a [float]; a zero divisor raises. *)
Definition num_truediv (a b : num) : result F64.float :=
  match a, b with
  | NInt m, NInt n => int_truediv m n
  | _, _ =>
      x <- to_float a ;;
      y <- to_float b ;;
      if F64.is_zero y then Raise ZeroDivisionError else Ok (F64.div x y)
  end.

(** An operand of an arithmetic operator.  Validation lets only instances of
    [int] and [float] through ([no_TypeError] below), so the [TypeError] arm,
    which stands for the operator's dispatch on other types, is never taken
    by the toolkit. *)
Definition operand (o : pyobj) : result num :=
  match as_num o with
  | Some v => Ok v
  | None => Raise TypeError
  end.

Definition py_mul (a b : pyobj) : result num :=
  x <- operand a ;;
  y <- operand b ;;
  num_mul x y.

(** ** The toolkit *)

Definition denominator_msg : string :=
  "Denominator (λ × d_I) cannot be zero (would cause division by zero).".

(** The validation loop of [calculate_ci] over the (name, value) pairs. *)
Fixpoint validate (params : list (string * pyobj)) : result unit :=
  match params with
  | [] => Ok tt
  | (name, x) :: rest =>
      match as_num x with
      | None => Raise (ValueError (name ++ " must be a number."))
      | Some v =>
          if num_lt v 0
          then Raise (ValueError (name ++ " must be non-negative."))
          else validate rest
      end
  end.

Section CoreCalculation.

(** [math.log10] on the floats it is called with here: [calculate_ci]
    calls it only when [ci > 0], where it returns a float for every
    argument (the logarithm of a positive double, and infinity at
    infinity). *)
Variable log10 : F64.float -> F64.float.

(** [calculate_ci(R, f_I, d_I, lambda_env)]: the pair [(ci, log_ci)], or the
    exception raised.  The quotient of a true division is always a [float],
    so both components are floats. *)
Definition calculate_ci (R f_I d_I lambda_env : pyobj)
  : result (F64.float * F64.float) :=
  checked <- validate [("R", R); ("f_I", f_I); ("d_I", d_I);
                       ("lambda_env", lambda_env)] ;;
  denominator <- py_mul lambda_env d_I ;;
  if num_eq denominator 0 then Raise (ValueError denominator_msg)
  else
    numerator <- py_mul R f_I ;;
    ci <- num_truediv numerator denominator ;;
    let log_ci := if num_gt (NFloat ci) 0 then log10 ci else F64.neg_inf in
    Ok (ci, log_ci).

End CoreCalculation.

Definition msg_effective : string :=
  "The system is on a path to persist and potentially grow (effective continuity).".
Definition msg_equilibrium : string :=
  "The system is in a fragile equilibrium; small changes can shift it toward growth or collapse.".
Definition msg_collapse : string :=
  "The system is at risk of collapse or extinction in expectation (continuity threshold not met).".
Definition msg_invalid : string := "Invalid CI value.".

(** The three remaining methods compare their argument with integer
    literals and return a string; they are modelled on numbers ([int] or
    [float]), on which the comparisons never raise. *)

Definition interpret_ci_minimal (ci : num) : string :=
  if num_gt ci 1 then msg_effective
  else if num_eq ci 1 then msg_equilibrium
  else if num_lt ci 1 then msg_collapse
  else msg_invalid.

Definition classify_regime (log_ci : num) : string :=
  if num_ge log_ci 4 then "super_persistent"
  else if num_ge log_ci 2 then "strong"
  else if num_ge log_ci 1 then "fragile"
  else "collapse_gravity".

Definition explain_super_persistent : string :=
  "System exhibits very strong continuity (super_persistent): " ++
  "it is structurally robust and highly likely to persist barring extreme, nonlocal shocks.".
Definition explain_strong : string :=
  "System has strong continuity: it is generally robust and resilient, " ++
  "but still worth monitoring for long-term drift or accumulating stress.".
Definition explain_fragile : string :=
  "System is in the fragile continuity band: continuity may hold for some time, " ++
  "but relatively modest shocks or parameter changes can push it toward collapse or recovery.".
Definition explain_collapse_gravity : string :=
  "System is in the collapse-gravity regime: without significant intervention to improve reproduction, " ++
  "fidelity, or reduce hazard/volatility, continuity is unlikely to be sustained.".

Definition explain_regime (log_ci : num) : string :=
  let regime := classify_regime log_ci in
  if String.eqb regime "super_persistent" then explain_super_persistent
  else if String.eqb regime "strong" then explain_strong
  else if String.eqb regime "fragile" then explain_fragile
  else explain_collapse_gravity.

(** ** Float literals used in the statements *)

Definition f0 : F64.float := S754_zero false.          (* 0.0 *)
Definition f1 : F64.float := F64.of_Z 1.               (* 1.0 *)
Definition f2 : F64.float := F64.of_Z 2.               (* 2.0 *)
Definition f4 : F64.float := F64.of_Z 4.               (* 4.0 *)
Definition f5 : F64.float := F64.of_Z 5.               (* 5.0 *)
Definition f100 : F64.float := F64.of_Z 100.           (* 100.0 *)
Definition f3_999999 : F64.float := F64.of_ratio 3999999 1000000. (* 3.999999 *)
Definition f0_999999 : F64.float := F64.of_ratio 999999 1000000.  (* 0.999999 *)
Definition f1e200 : F64.float := F64.of_ratio (10 ^ 200) 1.  (* 1e200 *)
Definition f1em200 : F64.float := F64.of_ratio 1 (10 ^ 200). (* 1e-200 *)

(** ** What validation rejects *)

(** [x < 0] on an object that passed the type check. *)
Definition is_negative (o : pyobj) : bool :=
  match as_num o with
  | Some v => num_lt v 0
  | None => false
  end.

(** The object fails one of the two checks of the loop body. *)
Definition offending (o : pyobj) : bool :=
  negb (isinstance_int_float o) || is_negative o.

(** The message the loop body raises for an offending parameter: the type
    check comes first. *)
Definition invalid_input_msg (name : string) (o : pyobj) : string :=
  if isinstance_int_float o
  then name ++ " must be non-negative."
  else name ++ " must be a number.".

Definition num_is_nan (v : num) : bool :=
  match v with
  | NInt _ => false
  | NFloat x => F64.is_nan x
  end.

(** [o >= 0] for an instance of [int] or [float] (false on NaN). *)
Definition is_nonneg (o : pyobj) : bool :=
  match as_num o with
  | Some v => num_ge v 0
  | None => false
  end.

(** [o == 0] *)
Definition is_zero_obj (o : pyobj) : bool :=
  match as_num o with
  | Some v => num_eq v 0
  | None => false
  end.

(** Neither an infinity nor NaN; every [int] is finite. *)
Definition num_finite (v : num) : bool :=
  match v with
  | NInt _ => true
  | NFloat x => F64.is_finite x
  end.

Definition obj_finite (o : pyobj) : bool :=
  match as_num o with
  | Some v => num_finite v
  | None => false
  end.

(** Finite and, for an [int], within the range of doubles. *)
Definition in_float_range (o : pyobj) : bool :=
  match as_num o with
  | Some v =>
      match to_float v with
      | Ok x => F64.is_finite x
      | Raise _ => false
      end
  | None => false
  end.

(** [x < 0], [x > 0] read off the representation. *)
Definition is_neg (x : F64.float) : bool :=
  match x with
  | S754_infinity s | S754_finite s _ _ => s
  | S754_zero _ | S754_nan => false
  end.

Definition is_pos (x : F64.float) : bool :=
  match x with
  | S754_infinity s | S754_finite s _ _ => negb s
  | S754_zero _ | S754_nan => false
  end.

(** The sign bit of [x] is [s], or [x] is NaN. *)
Definition has_sign (s : bool) (x : F64.float) : bool :=
  match x with
  | S754_zero t | S754_infinity t | S754_finite t _ _ => Bool.eqb s t
  | S754_nan => true
  end.

(** ** Integers beyond the range of doubles *)

(** The least positive [int] that [float()] and the true division refuse
    with [OverflowError]: [2**1024 - 2**970] lies halfway between the
    largest double, [2**1024 - 2**971], and [2**1024], and the tie rounds
    to the even mantissa, upwards. *)
Definition float_overflow_bound : Z := 2 ^ 1024 - 2 ^ 970.

(** An [int] of magnitude [>= 2**1024 - 2**970]. *)
Definition int_overflows (v : num) : bool :=
  match v with
  | NInt n => float_overflow_bound <=? Z.abs n
  | NFloat _ => false
  end.

(** A product with a float operand and an [int] operand that overflows;
    a product of two [int]s is exact. *)
Definition mul_overflows (a b : num) : bool :=
  match a, b with
  | NInt _, NInt _ => false
  | _, _ => int_overflows a || int_overflows b
  end.

(** A quotient with a float operand and an [int] operand that overflows,
    or a quotient of two [int]s whose integer part overflows. *)
Definition truediv_overflows (a b : num) : bool :=
  match a, b with
  | NInt m, NInt n => float_overflow_bound <=? Z.abs m / Z.abs n
  | _, _ => int_overflows a || int_overflows b
  end.

(** The two factors of a product are floats or [int]s below the bound, and
    so is the product of two [int] factors. *)
Definition product_fits (a b : num) : bool :=
  match a, b with
  | NInt m, NInt n => Z.abs (m * n) <? float_overflow_bound
  | _, _ => negb (int_overflows a || int_overflows b)
  end.

(** ** A value of [math.log10] for the worked examples

    The value of [math.log10] at the arguments of the examples below:
    [log10(1.0) = 0.0], [log10(100.0) = 2.0], [log10(10000.0) = 4.0] and
    [log10(16.666666666666668) = 1.2218487496163564].  The theorems hold for
    every [log10]; this table only lets the examples run. *)
Definition log10_table : list (F64.float * F64.float) :=
  [ (f1, f0);
    (f100, f2);
    (F64.of_Z 10000, f4);
    (F64.of_ratio 16666666666666668 1000000000000000,
     F64.of_ratio 12218487496163564 10000000000000000) ].

Definition same_float (x y : F64.float) : bool :=
  match x, y with
  | S754_zero s, S754_zero t => Bool.eqb s t
  | S754_infinity s, S754_infinity t => Bool.eqb s t
  | S754_nan, S754_nan => true
  | S754_finite s m e, S754_finite t n k =>
      Bool.eqb s t && Pos.eqb m n && Z.eqb e k
  | _, _ => false
  end.

Fixpoint lookup_float (x : F64.float) (t : list (F64.float * F64.float))
  : option F64.float :=
  match t with
  | [] => None
  | (a, b) :: t' => if same_float x a then Some b else lookup_float x t'
  end.

Definition log10_sample (x : F64.float) : F64.float :=
  match lookup_float x log10_table with
  | Some y => y
  | None => if F64.is_inf x then x else F64.nan
  end.

(** ** Vocabulary of the further properties *)

(** Every message a [ValueError] of [calculate_ci] can carry: the two of
    the loop body for each parameter name, and the one of the denominator
    check. *)
Definition error_messages : list string :=
  [ "R must be a number."; "R must be non-negative.";
    "f_I must be a number."; "f_I must be non-negative.";
    "d_I must be a number."; "d_I must be non-negative.";
    "lambda_env must be a number."; "lambda_env must be non-negative.";
    denominator_msg ].

(** A float NaN. *)
Definition is_nan_obj (o : pyobj) : bool :=
  match o with
  | PyFloat x => F64.is_nan x
  | _ => false
  end.

(** An instance of [int], [bool] included. *)
Definition is_int_obj (o : pyobj) : bool :=
  match o with
  | PyInt _ | PyBool _ => true
  | _ => false
  end.

(** An [int] that is not a [bool]. *)
Definition is_plain_int (o : pyobj) : bool :=
  match o with
  | PyInt _ => true
  | _ => false
  end.

(** A float, or an integer that is 0 or 1 (a [bool]). *)
Definition no_big_int (v : num) : Prop :=
  match v with
  | NInt n => n = 0 \/ n = 1
  | NFloat _ => True
  end.

(** The regime labels from the weakest to the strongest, and the three
    messages of [interpret_ci_minimal] likewise. *)
Definition regime_rank (label : string) : nat :=
  if String.eqb label "super_persistent" then 3
  else if String.eqb label "strong" then 2
  else if String.eqb label "fragile" then 1
  else 0.

Definition interpretation_rank (msg : string) : nat :=
  if String.eqb msg msg_effective then 2
  else if String.eqb msg msg_equilibrium then 1
  else 0.

(** * Properties *)

(** ** The validation loop *)

Lemma offending_false (o : pyobj) :
  offending o = false ->
  exists v, as_num o = Some v /\ num_lt v 0 = false.
Proof.
  unfold offending, isinstance_int_float, is_negative.
  destruct (as_num o) as [v|]; simpl; intro H; [|discriminate].
  exists v; auto.
Qed.

Lemma validate_cons_ok (name : string) (x : pyobj) (rest : list (string * pyobj)) :
  offending x = false -> validate ((name, x) :: rest) = validate rest.
Proof.
  intro H. destruct (offending_false x H) as (v & Hv & Hlt).
  simpl. rewrite Hv, Hlt. reflexivity.
Qed.

Lemma validate_cons_offending (name : string) (x : pyobj) (rest : list (string * pyobj)) :
  offending x = true ->
  validate ((name, x) :: rest) = Raise (ValueError (invalid_input_msg name x)).
Proof.
  unfold offending, invalid_input_msg, isinstance_int_float, is_negative. simpl.
  destruct (as_num x) as [v|]; simpl; intro H; [rewrite H|]; reflexivity.
Qed.

(** The loop stops at the first offending pair, whatever follows it. *)
Lemma validate_first_offending (pre : list (string * pyobj)) (name : string)
      (x : pyobj) (post : list (string * pyobj)) :
  (forall p, In p pre -> offending (snd p) = false) ->
  offending x = true ->
  validate (pre ++ (name, x) :: post)
  = Raise (ValueError (invalid_input_msg name x)).
Proof.
  induction pre as [|[n0 x0] pre IH]; intros Hpre Hx.
  - apply validate_cons_offending, Hx.
  - rewrite <- app_comm_cons, validate_cons_ok.
    + apply IH; [|exact Hx]. intros p Hp. apply Hpre. now right.
    + apply (Hpre (n0, x0)). now left.
Qed.

Lemma validate_ok_iff (params : list (string * pyobj)) :
  validate params = Ok tt <-> forall p, In p params -> offending (snd p) = false.
Proof.
  induction params as [|[n0 x0] params IH].
  - simpl. split; [intros _ p []|reflexivity].
  - destruct (offending x0) eqn:Hoff.
    + rewrite validate_cons_offending by exact Hoff. split; [discriminate|].
      intro H. specialize (H (n0, x0) (or_introl eq_refl)). simpl in H. congruence.
    + rewrite validate_cons_ok by exact Hoff. rewrite IH. split.
      * intros H p [<-|Hp]; [exact Hoff|now apply H].
      * intros H p Hp. apply H. now right.
Qed.

(** Some pair offends: the loop raises the message of one that does. *)
Lemma validate_some_offending (params : list (string * pyobj)) :
  (exists p, In p params /\ offending (snd p) = true) ->
  exists name x, In (name, x) params /\ offending x = true /\
    validate params = Raise (ValueError (invalid_input_msg name x)).
Proof.
  induction params as [|[n0 x0] params IH]; intros (p & Hin & Hp).
  - destruct Hin.
  - destruct (offending x0) eqn:Hoff.
    + exists n0, x0. repeat split; [now left|exact Hoff|].
      now apply validate_cons_offending.
    + destruct Hin as [<-|Hin]; [simpl in Hp; congruence|].
      destruct IH as (name & x & Hin' & Hx & Hv); [now exists p|].
      exists name, x. repeat split; [now right|exact Hx|].
      now rewrite validate_cons_ok.
Qed.

(** A validation failure is the failure of the whole call. *)
Lemma calculate_ci_validate_raise (log10 : F64.float -> F64.float)
      (R f_I d_I lambda_env : pyobj) (e : exn) :
  validate [("R", R); ("f_I", f_I); ("d_I", d_I); ("lambda_env", lambda_env)]
  = Raise e ->
  calculate_ci log10 R f_I d_I lambda_env = Raise e.
Proof. intro H. unfold calculate_ci. rewrite H. reflexivity. Qed.

(** ** Worked example *)

(** The literal scenario of the class docstring and of the demonstration:
    [calculate_ci(R=2.5, f_I=0.8, d_I=0.1, lambda_env=1.2)]. *)
Example demo_scenario :
  calculate_ci log10_sample
    (PyFloat (F64.of_ratio 25 10)) (PyFloat (F64.of_ratio 8 10))
    (PyFloat (F64.of_ratio 1 10)) (PyFloat (F64.of_ratio 12 10))
  = Ok (F64.of_ratio 16666666666666668 1000000000000000,
        F64.of_ratio 12218487496163564 10000000000000000)
  /\ classify_regime (NFloat (F64.of_ratio 12218487496163564 10000000000000000))
     = "fragile"
  /\ interpret_ci_minimal
       (NFloat (F64.of_ratio 16666666666666668 1000000000000000))
     = msg_effective.
Proof. repeat split; vm_compute; reflexivity. Qed.

(** ** Invalid input *)

(** C3. [calculate_ci] fails with the invalid-input [ValueError] whenever one
    of [R], [f_I], [d_I], [lambda_env] is not an instance of [int] or [float]
    or is negative, and the message names a parameter that offends; with
    [R = -1] the message is "R must be non-negative.", whatever the other
    three are. *)
Theorem calculate_ci_rejects_invalid_input
        (log10 : F64.float -> F64.float) (R f_I d_I lambda_env : pyobj) :
  (offending R = true \/ offending f_I = true \/
   offending d_I = true \/ offending lambda_env = true ->
   exists name x,
     In (name, x) [("R", R); ("f_I", f_I); ("d_I", d_I);
                   ("lambda_env", lambda_env)] /\
     offending x = true /\
     calculate_ci log10 R f_I d_I lambda_env
     = Raise (ValueError (invalid_input_msg name x)))
  /\ calculate_ci log10 (PyInt (-1)) f_I d_I lambda_env
     = Raise (ValueError "R must be non-negative.").
Proof.
  split.
  - intro H.
    destruct (validate_some_offending
                [("R", R); ("f_I", f_I); ("d_I", d_I); ("lambda_env", lambda_env)])
      as (name & x & Hin & Hx & Hv).
    + destruct H as [H|[H|[H|H]]];
        [exists ("R", R) | exists ("f_I", f_I)
         | exists ("d_I", d_I) | exists ("lambda_env", lambda_env)];
        simpl; auto 6.
    + exists name, x. repeat split; auto.
      now apply calculate_ci_validate_raise.
  - apply calculate_ci_validate_raise. reflexivity.
Qed.

Lemma calculate_ci_rejects_invalid_input_witness :
  offending (PyStr "fast") = true /\
  exists name x,
    In (name, x) [("R", PyFloat f1); ("f_I", PyStr "fast"); ("d_I", PyInt 3);
                  ("lambda_env", PyFloat f2)] /\
    offending x = true /\
    calculate_ci log10_sample (PyFloat f1) (PyStr "fast") (PyInt 3) (PyFloat f2)
    = Raise (ValueError (invalid_input_msg name x)).
Proof.
  split; [reflexivity|].
  apply (calculate_ci_rejects_invalid_input
           log10_sample (PyFloat f1) (PyStr "fast") (PyInt 3) (PyFloat f2)).
  right; left. reflexivity.
Defined.

(** C9. Validation comes before the zero-denominator check, the parameters
    are checked in the order [R], [f_I], [d_I], [lambda_env], and for each one
    the type check comes before the sign check: the error of a call is the
    invalid-input error of the first offending parameter in that order, so a
    negative [R] together with [d_I = 0] gives the error naming [R] and not
    the zero-denominator one. *)
Theorem calculate_ci_first_offender
        (log10 : F64.float -> F64.float) (R f_I d_I lambda_env : pyobj) :
  (offending R = true ->
   calculate_ci log10 R f_I d_I lambda_env
   = Raise (ValueError (invalid_input_msg "R" R)))
  /\ (offending R = false -> offending f_I = true ->
      calculate_ci log10 R f_I d_I lambda_env
      = Raise (ValueError (invalid_input_msg "f_I" f_I)))
  /\ (offending R = false -> offending f_I = false -> offending d_I = true ->
      calculate_ci log10 R f_I d_I lambda_env
      = Raise (ValueError (invalid_input_msg "d_I" d_I)))
  /\ (offending R = false -> offending f_I = false -> offending d_I = false ->
      offending lambda_env = true ->
      calculate_ci log10 R f_I d_I lambda_env
      = Raise (ValueError (invalid_input_msg "lambda_env" lambda_env)))
  /\ (forall name x, isinstance_int_float x = false ->
      offending x = true /\
      invalid_input_msg name x = name ++ " must be a number.")
  /\ (forall name x, isinstance_int_float x = true -> is_negative x = true ->
      offending x = true /\
      invalid_input_msg name x = name ++ " must be non-negative.")
  /\ calculate_ci log10 (PyInt (-1)) (PyInt 1) (PyInt 0) (PyInt 5)
     = Raise (ValueError "R must be non-negative.")
  /\ ValueError "R must be non-negative." <> ValueError denominator_msg.
Proof.
  split; [|split; [|split; [|split; [|split; [|split; [|split]]]]]].
  - intro HR. apply calculate_ci_validate_raise.
    apply (validate_first_offending [] "R" R); [intros p []|exact HR].
  - intros HR Hf. apply calculate_ci_validate_raise.
    apply (validate_first_offending [("R", R)] "f_I" f_I); [|exact Hf].
    intros p [<-|[]]; exact HR.
  - intros HR Hf Hd. apply calculate_ci_validate_raise.
    apply (validate_first_offending [("R", R); ("f_I", f_I)] "d_I" d_I);
      [|exact Hd].
    intros p [<-|[<-|[]]]; assumption.
  - intros HR Hf Hd Hl. apply calculate_ci_validate_raise.
    apply (validate_first_offending
             [("R", R); ("f_I", f_I); ("d_I", d_I)] "lambda_env" lambda_env);
      [|exact Hl].
    intros p [<-|[<-|[<-|[]]]]; assumption.
  - intros name x Hx. unfold offending, invalid_input_msg.
    rewrite Hx. split; reflexivity.
  - intros name x Hx Hneg. unfold offending, invalid_input_msg.
    rewrite Hx, Hneg. split; reflexivity.
  - reflexivity.
  - discriminate.
Qed.

Lemma calculate_ci_first_offender_witness :
  calculate_ci log10_sample (PyFloat f1) (PyInt 2) PyNone (PyInt (-7))
  = Raise (ValueError "d_I must be a number.").
Proof.
  exact (proj1 (proj2 (proj2 (calculate_ci_first_offender
           log10_sample (PyFloat f1) (PyInt 2) PyNone (PyInt (-7)))))
           eq_refl eq_refl eq_refl).
Defined.

(** ** Comparisons with an integer literal *)

Lemma num_cmp_not_nan (v : num) (k : Z) :
  num_is_nan v = false -> exists c, num_cmp v k = Some c.
Proof.
  destruct v as [n|x]; simpl; [eauto|].
  destruct x as [s|s| |s m e]; simpl; try discriminate; eauto.
  destruct e; eauto.
Qed.

Lemma num_cmp_nan (v : num) (k : Z) :
  num_is_nan v = true -> num_cmp v k = None.
Proof.
  destruct v as [n|x]; simpl; [discriminate|].
  destruct x; simpl; try discriminate; reflexivity.
Qed.

Lemma num_cmp_none (v : num) (k : Z) :
  num_cmp v k = None -> num_is_nan v = true.
Proof.
  destruct v as [n|x]; simpl; [discriminate|].
  destruct x as [s|s| |s m e]; simpl; try discriminate; auto.
  destruct e; discriminate.
Qed.

(** The comparison is that of one fixed value against the literal: being
    below a literal carries over to every larger literal. *)
Lemma num_lt_mono (v : num) (j k : Z) :
  j <= k -> num_lt v j = true -> num_lt v k = true.
Proof.
  intro Hjk. unfold num_lt, num_cmp, F64.cmp_Z.
  destruct v as [n|[s|s| |s m e]]; auto.
  - destruct (Z.compare_spec n j); try discriminate.
    intros _. destruct (Z.compare_spec n k); auto; lia.
  - destruct (Z.compare_spec 0 j); try discriminate.
    intros _. destruct (Z.compare_spec 0 k); auto; lia.
  - set (mz := if s then Z.neg m else Z.pos m).
    destruct e as [|p|p].
    + destruct (Z.compare_spec (mz * 2 ^ 0) j); try discriminate.
      intros _. destruct (Z.compare_spec (mz * 2 ^ 0) k); auto; lia.
    + destruct (Z.compare_spec (mz * 2 ^ Z.pos p) j); try discriminate.
      intros _. destruct (Z.compare_spec (mz * 2 ^ Z.pos p) k); auto; lia.
    + assert (Hp : 0 < 2 ^ Z.pos p) by (apply Z.pow_pos_nonneg; lia).
      destruct (Z.compare_spec mz (j * 2 ^ Z.pos p)); try discriminate.
      intros _. destruct (Z.compare_spec mz (k * 2 ^ Z.pos p)); auto; nia.
Qed.

Lemma num_ge_lt (v : num) (k : Z) :
  num_is_nan v = false -> num_ge v k = negb (num_lt v k).
Proof.
  intro H. destruct (num_cmp_not_nan v k H) as (c & Hc).
  unfold num_ge, num_lt. rewrite Hc. destruct c; reflexivity.
Qed.

(** ** Regime bands *)

(** C10. A NaN argument makes each of [log_ci >= 4], [log_ci >= 2] and
    [log_ci >= 1] false, so [classify_regime] takes the catch-all branch and
    returns "collapse_gravity", and [explain_regime] returns the sentence of
    that label: both return normally. *)
Theorem classify_regime_nan :
  num_ge (NFloat F64.nan) 4 = false
  /\ num_ge (NFloat F64.nan) 2 = false
  /\ num_ge (NFloat F64.nan) 1 = false
  /\ classify_regime (NFloat F64.nan) = "collapse_gravity"
  /\ explain_regime (NFloat F64.nan) = explain_collapse_gravity.
Proof. repeat split. Qed.

Lemma classify_regime_cases (v : num) :
  classify_regime v = "super_persistent" \/ classify_regime v = "strong" \/
  classify_regime v = "fragile" \/ classify_regime v = "collapse_gravity".
Proof.
  unfold classify_regime.
  destruct (num_ge v 4); auto. destruct (num_ge v 2); auto.
  destruct (num_ge v 1); auto.
Qed.

(** C4. [classify_regime] is total (it returns one of the four labels for
    every argument), and on the extended reals (every number
    but NaN) its bands are right-open with non-strict lower bounds, tried in
    descending order: "super_persistent" iff [log_ci >= 4], "strong" iff
    [2 <= log_ci < 4], "fragile" iff [1 <= log_ci < 2], "collapse_gravity" iff
    [log_ci < 1], negative infinity included; at the four boundary samples
    4.0, 3.999999, 1.0 and 0.999999 it returns "super_persistent", "strong",
    "fragile" and "collapse_gravity". *)
Theorem classify_regime_bands :
  (forall log_ci : num,
     classify_regime log_ci = "super_persistent"
     \/ classify_regime log_ci = "strong"
     \/ classify_regime log_ci = "fragile"
     \/ classify_regime log_ci = "collapse_gravity")
  /\ (forall log_ci : num, num_is_nan log_ci = false ->
     (classify_regime log_ci = "super_persistent" <-> num_ge log_ci 4 = true)
     /\ (classify_regime log_ci = "strong"
         <-> num_ge log_ci 2 = true /\ num_lt log_ci 4 = true)
     /\ (classify_regime log_ci = "fragile"
         <-> num_ge log_ci 1 = true /\ num_lt log_ci 2 = true)
     /\ (classify_regime log_ci = "collapse_gravity"
         <-> num_lt log_ci 1 = true))
  /\ num_lt (NFloat F64.neg_inf) 1 = true
  /\ classify_regime (NFloat F64.neg_inf) = "collapse_gravity"
  /\ classify_regime (NFloat f4) = "super_persistent"
  /\ classify_regime (NFloat f3_999999) = "strong"
  /\ classify_regime (NFloat f1) = "fragile"
  /\ classify_regime (NFloat f0_999999) = "collapse_gravity".
Proof.
  split; [exact classify_regime_cases|].
  split; [|repeat split].
  intros v Hv.
  pose proof (num_lt_mono v 1 2 ltac:(lia)) as H12.
  pose proof (num_lt_mono v 2 4 ltac:(lia)) as H24.
  unfold classify_regime.
  rewrite !(num_ge_lt v) by exact Hv.
  destruct (num_lt v 4) eqn:L4, (num_lt v 2) eqn:L2, (num_lt v 1) eqn:L1;
    simpl;
    try (specialize (H12 eq_refl); discriminate);
    try (specialize (H24 eq_refl); discriminate);
    repeat split; try discriminate; try reflexivity;
    intros []; discriminate.
Qed.

Lemma classify_regime_bands_witness :
  classify_regime (NFloat (F64.of_ratio 25 10)) = "strong"
  <-> num_ge (NFloat (F64.of_ratio 25 10)) 2 = true
      /\ num_lt (NFloat (F64.of_ratio 25 10)) 4 = true.
Proof.
  exact (proj1 (proj2 (proj1 (proj2 classify_regime_bands)
                         (NFloat (F64.of_ratio 25 10)) eq_refl))).
Defined.

(** C7. [explain_regime] is total and its text depends on the argument only
    through the regime label: two arguments with the same label get the same
    text, and each of the four labels has one fixed sentence, into which
    nothing of the number is interpolated. *)
Theorem explain_regime_by_label :
  (forall x y : num,
     classify_regime x = classify_regime y ->
     explain_regime x = explain_regime y)
  /\ (forall x : num,
        (classify_regime x = "super_persistent" ->
         explain_regime x = explain_super_persistent)
        /\ (classify_regime x = "strong" -> explain_regime x = explain_strong)
        /\ (classify_regime x = "fragile" -> explain_regime x = explain_fragile)
        /\ (classify_regime x = "collapse_gravity" ->
            explain_regime x = explain_collapse_gravity)).
Proof.
  split.
  - intros x y H. unfold explain_regime. rewrite H. reflexivity.
  - intro x. unfold explain_regime.
    repeat split; intro H; rewrite H; reflexivity.
Qed.

Lemma explain_regime_by_label_witness :
  explain_regime (NFloat f2) = explain_regime (NInt 3).
Proof.
  exact (proj1 explain_regime_by_label (NFloat f2) (NInt 3) eq_refl).
Defined.

(** ** Minimal interpretation *)

(** The fallback branch is taken exactly when the three comparisons are all
    false, that is when the argument is NaN. *)
Lemma interpret_ci_minimal_invalid_iff (ci : num) :
  interpret_ci_minimal ci = msg_invalid <-> num_is_nan ci = true.
Proof.
  unfold interpret_ci_minimal, num_gt, num_eq, num_lt. split.
  - destruct (num_cmp ci 1) as [[]|] eqn:E; try discriminate.
    intros _. now apply num_cmp_none with 1.
  - intro H. now rewrite (num_cmp_nan ci 1 H).
Qed.

(** C6. [interpret_ci_minimal] compares its argument with the literal 1 three
    ways: [ci > 1] gives the effective-continuity message, [ci == 1] the
    fragile-equilibrium message, [ci < 1] the collapse-risk message, and the
    three messages are pairwise distinct. *)
Theorem interpret_ci_minimal_three_way :
  (forall ci : num, num_gt ci 1 = true ->
     interpret_ci_minimal ci = msg_effective)
  /\ (forall ci : num, num_eq ci 1 = true ->
        interpret_ci_minimal ci = msg_equilibrium)
  /\ (forall ci : num, num_lt ci 1 = true ->
        interpret_ci_minimal ci = msg_collapse)
  /\ msg_effective <> msg_equilibrium
  /\ msg_effective <> msg_collapse
  /\ msg_equilibrium <> msg_collapse.
Proof.
  repeat split; try discriminate;
    intros ci; unfold interpret_ci_minimal, num_gt, num_eq, num_lt;
    destruct (num_cmp ci 1) as [[]|]; intro H; try discriminate H; reflexivity.
Qed.

Lemma interpret_ci_minimal_three_way_witness :
  interpret_ci_minimal (NFloat f1) = msg_equilibrium.
Proof.
  exact (proj1 (proj2 interpret_ci_minimal_three_way) (NFloat f1) eq_refl).
Defined.

(** ** Signs of floats *)

Lemma cmp_Z_0_finite (s : bool) (m : positive) (e : Z) :
  F64.cmp_Z (S754_finite s m e) 0 = Some (if s then Lt else Gt).
Proof.
  unfold F64.cmp_Z. destruct e as [|p|p]; f_equal.
  - destruct s; reflexivity.
  - assert (Hp : 0 < 2 ^ Z.pos p) by (apply Z.pow_pos_nonneg; lia).
    destruct s; [apply Z.compare_lt_iff|apply Z.compare_gt_iff]; nia.
  - destruct s; reflexivity.
Qed.

Lemma float_lt_0 (x : F64.float) : num_lt (NFloat x) 0 = is_neg x.
Proof.
  unfold num_lt, num_cmp. destruct x as [s|s| |s m e];
    [reflexivity|destruct s; reflexivity|reflexivity|].
  rewrite cmp_Z_0_finite. destruct s; reflexivity.
Qed.

Lemma float_eq_0 (x : F64.float) : num_eq (NFloat x) 0 = F64.is_zero x.
Proof.
  unfold num_eq, num_cmp. destruct x as [s|s| |s m e];
    [reflexivity|destruct s; reflexivity|reflexivity|].
  rewrite cmp_Z_0_finite. destruct s; reflexivity.
Qed.

Lemma float_gt_0 (x : F64.float) : num_gt (NFloat x) 0 = is_pos x.
Proof.
  unfold num_gt, num_cmp. destruct x as [s|s| |s m e];
    [reflexivity|destruct s; reflexivity|reflexivity|].
  rewrite cmp_Z_0_finite. destruct s; reflexivity.
Qed.

Lemma has_sign_false_not_neg (x : F64.float) :
  has_sign false x = true -> is_neg x = false.
Proof. destruct x as [s|s| |s m e]; simpl; try reflexivity; now destruct s. Qed.

(** Rounding keeps the sign it is given. *)
Lemma binary_round_aux_sign (s : bool) (m e : Z) (l : location) :
  has_sign s (binary_round_aux F64.prec F64.emax s m e l) = true.
Proof.
  unfold binary_round_aux.
  destruct (shr_fexp F64.prec F64.emax m e l) as [mrs e'].
  destruct (shr_fexp F64.prec F64.emax _ e' loc_Exact) as [mrs' e''].
  destruct (shr_m mrs'); [| destruct (Z.leb _ _) |]; simpl;
    auto using Bool.eqb_reflx.
Qed.

Lemma mul_not_neg (x y : F64.float) :
  is_neg x = false -> is_neg y = false -> is_neg (F64.mul x y) = false.
Proof.
  destruct x as [sx|sx| |sx mx ex], y as [sy|sy| |sy my ey]; simpl;
    intros Hx Hy; subst; try reflexivity.
  apply has_sign_false_not_neg.
  apply (binary_round_aux_sign false).
Qed.

Lemma div_not_neg (x y : F64.float) :
  is_neg x = false -> is_neg y = false -> F64.is_zero y = false ->
  is_neg (F64.div x y) = false.
Proof.
  destruct x as [sx|sx| |sx mx ex], y as [sy|sy| |sy my ey]; simpl;
    intros Hx Hy Hz; subst; try reflexivity; try discriminate.
  apply has_sign_false_not_neg.
  unfold F64.div, SFdiv.
  destruct (SFdiv_core_binary F64.prec F64.emax (Z.pos mx) ex (Z.pos my) ey)
    as [[mz ez] lz].
  apply (binary_round_aux_sign false).
Qed.

Lemma of_Z_not_neg (n : Z) : 0 <= n -> is_neg (F64.of_Z n) = false.
Proof.
  intro Hn. destruct n as [|p|p]; [reflexivity| |lia].
  apply has_sign_false_not_neg.
  unfold F64.of_Z, binary_normalize, binary_round.
  destruct (shl_align _ _ _) as [mz ez].
  apply (binary_round_aux_sign false).
Qed.

(** ** Signs of numbers *)

Lemma int_lt_0 (n : Z) : num_lt (NInt n) 0 = (n <? 0).
Proof.
  unfold num_lt, num_cmp. rewrite Z.ltb_compare. now destruct (n ?= 0).
Qed.

Lemma int_eq_0 (n : Z) : num_eq (NInt n) 0 = (n =? 0).
Proof.
  unfold num_eq, num_cmp. rewrite Z.eqb_compare. now destruct (n ?= 0).
Qed.

Lemma to_float_not_neg (v : num) (x : F64.float) :
  num_lt v 0 = false -> to_float v = Ok x -> is_neg x = false.
Proof.
  destruct v as [n|y]; simpl.
  - rewrite int_lt_0. intros Hn. apply Z.ltb_ge in Hn.
    destruct (F64.is_inf (F64.of_Z n)); [discriminate|].
    intro H. injection H as <-. now apply of_Z_not_neg.
  - rewrite float_lt_0. intros Hy H. now injection H as <-.
Qed.

(** ** Exact comparison and IEEE comparison

    On the doubles themselves (the canonical representations), comparing
    exactly with the integers 0, 1, 2 and 4 is the IEEE comparison with the
    doubles 0.0, 1.0, 2.0 and 4.0: the thresholds of the toolkit can be read
    either way. *)

Lemma digits2_pos_bounds (m : positive) :
  2 ^ (Z.pos (digits2_pos m) - 1) <= Z.pos m < 2 ^ Z.pos (digits2_pos m).
Proof.
  induction m as [m IH|m IH|]; simpl digits2_pos.
  - rewrite Pos2Z.inj_succ.
    replace (Z.succ (Z.pos (digits2_pos m)) - 1)
      with (Z.succ (Z.pos (digits2_pos m) - 1)) by lia.
    rewrite !Z.pow_succ_r by lia. lia.
  - rewrite Pos2Z.inj_succ.
    replace (Z.succ (Z.pos (digits2_pos m)) - 1)
      with (Z.succ (Z.pos (digits2_pos m) - 1)) by lia.
    rewrite !Z.pow_succ_r by lia. lia.
  - simpl. lia.
Qed.

(** A canonical mantissa is below [2 ^ 53], and at least [2 ^ 52] unless the
    exponent is the least one (a subnormal). *)
Lemma valid_binary_finite (s : bool) (m : positive) (e : Z) :
  valid_binary F64.prec F64.emax (S754_finite s m e) = true ->
  Z.pos m < 2 ^ 53 /\ (e = -1074 \/ 2 ^ 52 <= Z.pos m).
Proof.
  unfold valid_binary, bounded, canonical_mantissa, fexp, emin,
    F64.prec, F64.emax.
  intro H. apply andb_prop in H. destruct H as [H _]. apply Z.eqb_eq in H.
  pose proof (digits2_pos_bounds m) as [Lo Hi].
  remember (Z.pos (digits2_pos m)) as d eqn:Ed. clear Ed.
  assert (Hd : d <= 53) by lia.
  split.
  - apply Z.lt_le_trans with (2 ^ d); [exact Hi|].
    apply Z.pow_le_mono_r; lia.
  - destruct (Z.eq_dec e (-1074)) as [E|E]; [now left|right].
    assert (D : d = 53) by lia. subst d. exact Lo.
Qed.

Lemma cmp_Z_pow2 (x : F64.float) (j : Z) :
  valid_binary F64.prec F64.emax x = true -> 0 <= j <= 52 ->
  F64.cmp_Z x (2 ^ j)
  = SFcompare x (S754_finite false 4503599627370496 (j - 52)).
Proof.
  intros V Hj.
  assert (P : 0 < 2 ^ j) by (apply Z.pow_pos_nonneg; lia).
  destruct x as [s|s| |s m e]; try reflexivity.
  - change (Some (0 ?= 2 ^ j) = Some Lt). f_equal.
    apply Z.compare_lt_iff. exact P.
  - destruct (valid_binary_finite s m e V) as [Hi Lo].
    unfold F64.cmp_Z, SFcompare. destruct s.
    + destruct e as [|p|p]; f_equal; apply Z.compare_lt_iff.
      * lia.
      * assert (0 < 2 ^ Z.pos p) by (apply Z.pow_pos_nonneg; lia). nia.
      * assert (0 < 2 ^ Z.pos p) by (apply Z.pow_pos_nonneg; lia). nia.
    + destruct (Z.compare_spec e (j - 52)) as [E|E|E].
      * (* the same exponent: the mantissas decide *)
        subst e. rewrite Pos.compare_cont_spec. cbn [Pos.switch_Eq].
        rewrite (Pos2Z.inj_compare m 4503599627370496).
        assert (T : Z.pos 4503599627370496 = 2 ^ 52)
          by (vm_compute; reflexivity).
        rewrite T. clear T.
        destruct (j - 52) as [|p|p] eqn:Ej; [ | lia | ].
        -- assert (j = 52) by lia. subst j. rewrite Z.mul_1_r.
           now destruct (Z.pos m ?= 2 ^ 52).
        -- assert (Ep : Z.pos p = 52 - j) by lia.
           rewrite <- Z.pow_add_r by lia.
           replace (j + Z.pos p) with 52 by lia.
           now destruct (Z.pos m ?= 2 ^ 52).
      * (* a smaller exponent: below the literal *)
        destruct e as [|p|p]; try lia.
        f_equal. apply Z.compare_lt_iff. rewrite <- Z.pow_add_r by lia.
        apply Z.lt_le_trans with (2 ^ 53); [exact Hi|].
        apply Z.pow_le_mono_r; lia.
      * (* a larger exponent: a normal number above the literal *)
        destruct Lo as [Lo|Lo]; [lia|].
        destruct e as [|p|p].
        -- f_equal. apply Z.compare_gt_iff. rewrite Z.mul_1_r.
           apply Z.lt_le_trans with (2 ^ 52); [|exact Lo].
           apply Z.pow_lt_mono_r; lia.
        -- f_equal. apply Z.compare_gt_iff.
           assert (2 ^ 1 <= 2 ^ Z.pos p) by (apply Z.pow_le_mono_r; lia).
           assert (2 ^ j <= 2 ^ 52) by (apply Z.pow_le_mono_r; lia).
           change (2 ^ 1) with 2 in *. nia.
        -- f_equal. apply Z.compare_gt_iff. rewrite <- Z.pow_add_r by lia.
           apply Z.lt_le_trans with (2 ^ 52); [|exact Lo].
           apply Z.pow_lt_mono_r; lia.
Qed.

Lemma num_cmp_literals (x : F64.float) :
  valid_binary F64.prec F64.emax x = true ->
  num_cmp (NFloat x) 0 = SFcompare x f0
  /\ num_cmp (NFloat x) 1 = SFcompare x f1
  /\ num_cmp (NFloat x) 2 = SFcompare x f2
  /\ num_cmp (NFloat x) 4 = SFcompare x f4.
Proof.
  intro V. split; [|split; [|split]].
  - unfold num_cmp. destruct x as [s|s| |s m e]; try reflexivity.
    rewrite cmp_Z_0_finite. reflexivity.
  - apply (cmp_Z_pow2 x 0 V). lia.
  - apply (cmp_Z_pow2 x 1 V). lia.
  - apply (cmp_Z_pow2 x 2 V). lia.
Qed.

(** ** Rounding never produces NaN *)

Lemma shr_1_nonneg (mrs : shr_record) :
  0 <= shr_m mrs -> 0 <= shr_m (shr_1 mrs).
Proof.
  destruct mrs as [m r s]. destruct m as [|p|p]; simpl; try lia;
    destruct p; simpl; lia.
Qed.

Lemma iter_shr_1_nonneg (p : positive) :
  forall mrs, 0 <= shr_m mrs -> 0 <= shr_m (iter_pos shr_1 p mrs).
Proof.
  induction p as [p IH|p IH|]; intros mrs H; simpl.
  - apply IH, IH, shr_1_nonneg, H.
  - apply IH, IH, H.
  - apply shr_1_nonneg, H.
Qed.

Lemma shr_fexp_nonneg (m e : Z) (l : location) :
  0 <= m -> 0 <= shr_m (fst (shr_fexp F64.prec F64.emax m e l)).
Proof.
  intro Hm. unfold shr_fexp, shr.
  assert (H0 : 0 <= shr_m (shr_record_of_loc m l))
    by (destruct l as [|[]]; exact Hm).
  destruct (fexp F64.prec F64.emax (Zdigits2 m + e) - e); simpl; auto.
  now apply iter_shr_1_nonneg.
Qed.

Lemma round_nearest_even_nonneg (m : Z) (l : location) :
  0 <= m -> 0 <= round_nearest_even m l.
Proof.
  intro Hm. destruct l as [|[]]; simpl; try lia.
  destruct (Z.even m); lia.
Qed.

Lemma binary_round_aux_not_nan (s : bool) (m e : Z) (l : location) :
  0 <= m -> F64.is_nan (binary_round_aux F64.prec F64.emax s m e l) = false.
Proof.
  intro Hm. unfold binary_round_aux.
  pose proof (shr_fexp_nonneg m e l Hm) as H1.
  destruct (shr_fexp F64.prec F64.emax m e l) as [mrs e']. simpl in H1.
  pose proof (shr_fexp_nonneg
                (round_nearest_even (shr_m mrs) (loc_of_shr_record mrs))
                e' loc_Exact (round_nearest_even_nonneg _ _ H1)) as H2.
  destruct (shr_fexp F64.prec F64.emax _ e' loc_Exact) as [mrs' e''].
  simpl in H2.
  destruct (shr_m mrs'); [reflexivity| |lia].
  now destruct (Z.leb _ _).
Qed.

Lemma of_Z_not_nan (n : Z) : F64.is_nan (F64.of_Z n) = false.
Proof.
  destruct n as [|p|p]; [reflexivity| |];
    unfold F64.of_Z, binary_normalize, binary_round;
    destruct (shl_align _ _ _) as [mz ez];
    apply binary_round_aux_not_nan; lia.
Qed.

Lemma mul_finite_not_nan (x y : F64.float) :
  F64.is_finite x = true -> F64.is_finite y = true ->
  F64.is_nan (F64.mul x y) = false.
Proof.
  destruct x as [sx|sx| |sx mx ex], y as [sy|sy| |sy my ey]; simpl;
    intros Hx Hy; try discriminate; try reflexivity.
  apply binary_round_aux_not_nan. lia.
Qed.

Lemma mul_zero_finite (x y : F64.float) :
  F64.is_finite x = true -> F64.is_finite y = true ->
  F64.is_zero x = true \/ F64.is_zero y = true ->
  F64.is_zero (F64.mul x y) = true.
Proof.
  destruct x as [sx|sx| |sx mx ex], y as [sy|sy| |sy my ey]; simpl;
    intros Hx Hy [H|H]; try discriminate; reflexivity.
Qed.

Lemma div_zero (x y : F64.float) :
  F64.is_zero x = true -> F64.is_zero y = false -> F64.is_nan y = false ->
  F64.is_zero (F64.div x y) = true.
Proof.
  destruct x as [sx|sx| |sx mx ex], y as [sy|sy| |sy my ey]; simpl;
    intros Hx Hy Hn; try discriminate; reflexivity.
Qed.

(** ** Rounding a nonzero value

    Shifting a mantissa right by [k] bits divides it by [2 ^ k]; at or above
    the least exponent the shift of the rounding leaves at least the leading
    bit, so the value does not vanish. *)

Lemma shr_1_div2 (mrs : shr_record) :
  0 <= shr_m mrs -> shr_m (shr_1 mrs) = shr_m mrs / 2.
Proof.
  destruct mrs as [m r s]. destruct m as [|p|p]; intro H.
  - reflexivity.
  - destruct p as [p|p|]; simpl shr_m.
    + rewrite Pos2Z.inj_xI. apply Z.div_unique with 1; lia.
    + rewrite Pos2Z.inj_xO. apply Z.div_unique with 0; lia.
    + reflexivity.
  - simpl in H. lia.
Qed.

Lemma iter_shr_1_div (p : positive) :
  forall mrs, 0 <= shr_m mrs ->
    shr_m (iter_pos shr_1 p mrs) = shr_m mrs / 2 ^ Z.pos p.
Proof.
  induction p as [p IH|p IH|]; intros mrs H; simpl iter_pos.
  - rewrite IH by (apply iter_shr_1_nonneg, shr_1_nonneg, H).
    rewrite IH by (apply shr_1_nonneg, H).
    rewrite shr_1_div2 by exact H.
    rewrite !Z.div_div by (try apply Z.pow_pos_nonneg; lia).
    f_equal.
    replace (Z.pos p~1) with (1 + Z.pos p + Z.pos p) by lia.
    rewrite !Z.pow_add_r by lia. change (2 ^ 1) with 2. ring.
  - rewrite IH by (apply iter_shr_1_nonneg, H).
    rewrite IH by exact H.
    rewrite !Z.div_div by (try apply Z.pow_pos_nonneg; lia).
    f_equal.
    replace (Z.pos p~0) with (Z.pos p + Z.pos p) by lia.
    rewrite !Z.pow_add_r by lia. ring.
  - now apply shr_1_div2.
Qed.

Lemma shr_fexp_pos (m : positive) (e : Z) (l : location) :
  -1074 <= e ->
  0 < shr_m (fst (shr_fexp F64.prec F64.emax (Z.pos m) e l))
  /\ -1074 <= snd (shr_fexp F64.prec F64.emax (Z.pos m) e l).
Proof.
  intro He. unfold shr_fexp, shr.
  assert (H0 : shr_m (shr_record_of_loc (Z.pos m) l) = Z.pos m)
    by (destruct l as [|[]]; reflexivity).
  pose proof (digits2_pos_bounds m) as [Lo Hi].
  unfold Zdigits2, fexp, emin, F64.prec, F64.emax.
  remember (Z.pos (digits2_pos m)) as d eqn:Ed.
  assert (Hd : 1 <= d) by lia.
  destruct (Z.max (d + e - 53) (3 - 1024 - 53) - e) as [|k|k] eqn:K; simpl.
  - rewrite H0. lia.
  - rewrite iter_shr_1_div by (rewrite H0; lia). rewrite H0.
    split; [|lia].
    apply Z.div_str_pos. split; [apply Z.pow_pos_nonneg; lia|].
    apply Z.le_trans with (2 ^ (d - 1)); [|exact Lo].
    apply Z.pow_le_mono_r; lia.
  - rewrite H0. lia.
Qed.

Lemma round_nearest_even_pos (m : Z) (l : location) :
  0 < m -> 0 < round_nearest_even m l.
Proof.
  intro Hm. destruct l as [|[]]; simpl; try lia.
  destruct (Z.even m); lia.
Qed.

(** Above the least exponent, rounding a nonzero value never gives zero. *)
Lemma binary_round_aux_nonzero (s : bool) (m : positive) (e : Z) (l : location) :
  -1074 <= e ->
  F64.is_zero (binary_round_aux F64.prec F64.emax s (Z.pos m) e l) = false.
Proof.
  intro He. unfold binary_round_aux.
  destruct (shr_fexp_pos m e l He) as [H1 E1].
  destruct (shr_fexp F64.prec F64.emax (Z.pos m) e l) as [mrs e'].
  simpl in H1, E1.
  pose proof (round_nearest_even_pos _ (loc_of_shr_record mrs) H1) as H2.
  destruct (round_nearest_even (shr_m mrs) (loc_of_shr_record mrs))
    as [|m2|m2]; try lia.
  destruct (shr_fexp_pos m2 e' loc_Exact E1) as [H3 _].
  destruct (shr_fexp F64.prec F64.emax (Z.pos m2) e' loc_Exact) as [mrs' e''].
  simpl in H3.
  destruct (shr_m mrs'); try lia.
  now destruct (Z.leb _ _).
Qed.

Lemma of_Z_nonzero (n : Z) : n <> 0 -> F64.is_zero (F64.of_Z n) = false.
Proof.
  intro Hn. destruct n as [|p|p]; [lia| |];
    unfold F64.of_Z, binary_normalize, binary_round, shl_align;
    set (f := fexp F64.prec F64.emax (Z.pos (digits2_pos p) + 0));
    (assert (Hf : -1074 <= f)
      by (unfold f, fexp, emin, F64.prec, F64.emax; lia));
    destruct (f - 0) eqn:E; apply binary_round_aux_nonzero; lia.
Qed.

Lemma to_float_nonzero (v : num) (x : F64.float) :
  num_eq v 0 = false -> to_float v = Ok x -> F64.is_zero x = false.
Proof.
  destruct v as [n|y]; simpl.
  - rewrite int_eq_0. intro Hn. apply Z.eqb_neq in Hn.
    destruct (F64.is_inf (F64.of_Z n)); [discriminate|].
    intro H. injection H as <-. now apply of_Z_nonzero.
  - rewrite float_eq_0. intros Hy H. now injection H as <-.
Qed.

Lemma num_truediv_nonzero_divisor (a b : num) :
  num_eq b 0 = false -> num_truediv a b <> Raise ZeroDivisionError.
Proof.
  intro Hb. assert (G : forall x y, to_float a = Ok x -> to_float b = Ok y ->
    (if F64.is_zero y then Raise ZeroDivisionError else Ok (F64.div x y))
    <> Raise ZeroDivisionError).
  { intros x y _ Hy. now rewrite (to_float_nonzero b y Hb Hy). }
  destruct a as [m|x], b as [n|y].
  - simpl. unfold int_truediv. rewrite int_eq_0 in Hb. rewrite Hb.
    destruct (m =? 0); [discriminate|].
    destruct (F64.is_inf _); discriminate.
  - unfold num_truediv.
    destruct (to_float (NInt m)) as [x|e] eqn:Ex; simpl.
    + now apply (G x y).
    + simpl in Ex. destruct (F64.is_inf _); [|discriminate].
      injection Ex as <-. discriminate.
  - unfold num_truediv. simpl to_float at 1. cbn [bind].
    destruct (to_float (NInt n)) as [y|e] eqn:Ey; simpl.
    + now apply (G x y).
    + simpl in Ey. destruct (F64.is_inf _); [|discriminate].
      injection Ey as <-. discriminate.
  - simpl. now apply (G x y).
Qed.

(** An [int] that converts to [float] converts to a finite one. *)
Lemma to_float_int_finite (n : Z) (x : F64.float) :
  to_float (NInt n) = Ok x -> F64.is_finite x = true.
Proof.
  simpl. pose proof (of_Z_not_nan n) as Hn.
  destruct (F64.of_Z n) as [s|s| |s m e]; simpl in *; try discriminate;
    intro H; injection H as <-; reflexivity.
Qed.

(** ** Inversion of the arithmetic *)

Lemma num_mul_inv (a b c : num) :
  num_mul a b = Ok c ->
  (exists m n, a = NInt m /\ b = NInt n /\ c = NInt (m * n))
  \/ (exists x y, to_float a = Ok x /\ to_float b = Ok y /\
                  c = NFloat (F64.mul x y)).
Proof.
  destruct a as [m|x], b as [n|y]; simpl.
  - intro H. injection H as <-. left. now exists m, n.
  - destruct (F64.is_inf (F64.of_Z m)); simpl; [discriminate|].
    intro H. injection H as <-. right. now exists (F64.of_Z m), y.
  - destruct (F64.is_inf (F64.of_Z n)); simpl; [discriminate|].
    intro H. injection H as <-. right. now exists x, (F64.of_Z n).
  - intro H. injection H as <-. right. now exists x, y.
Qed.

Lemma num_truediv_inv (a b : num) (q : F64.float) :
  num_truediv a b = Ok q ->
  (exists m n, a = NInt m /\ b = NInt n /\ int_truediv m n = Ok q)
  \/ (exists x y, to_float a = Ok x /\ to_float b = Ok y /\
                  F64.is_zero y = false /\ q = F64.div x y).
Proof.
  destruct a as [m|x], b as [n|y]; simpl.
  - intro H. left. now exists m, n.
  - destruct (F64.is_inf (F64.of_Z m)); simpl; [discriminate|].
    destruct (F64.is_zero y) eqn:Z; [discriminate|].
    intro H. injection H as <-. right. now exists (F64.of_Z m), y.
  - destruct (F64.is_inf (F64.of_Z n)); simpl; [discriminate|].
    destruct (F64.is_zero (F64.of_Z n)) eqn:Z; [discriminate|].
    intro H. injection H as <-. right. now exists x, (F64.of_Z n).
  - destruct (F64.is_zero y) eqn:Z; [discriminate|].
    intro H. injection H as <-. right. now exists x, y.
Qed.

Lemma py_mul_num (a b : pyobj) (x y : num) :
  as_num a = Some x -> as_num b = Some y -> py_mul a b = num_mul x y.
Proof. intros Ha Hb. unfold py_mul, operand. now rewrite Ha, Hb. Qed.

(** The arithmetic raises nothing but its own three exceptions. *)
Lemma num_mul_raise (a b : num) (e : exn) :
  num_mul a b = Raise e -> e = OverflowError.
Proof.
  destruct a as [m|x], b as [n|y]; simpl; try discriminate;
    try destruct (F64.is_inf (F64.of_Z m));
    try destruct (F64.is_inf (F64.of_Z n)); simpl; try discriminate;
    intro H; now injection H.
Qed.

Lemma py_mul_raise (a b : pyobj) (e : exn) :
  py_mul a b = Raise e -> e = OverflowError \/ e = TypeError.
Proof.
  unfold py_mul, operand.
  destruct (as_num a) as [x|]; simpl; [|intro H; injection H; auto].
  destruct (as_num b) as [y|]; simpl; [|intro H; injection H; auto].
  intro H. left. now apply num_mul_raise in H.
Qed.

Lemma num_truediv_raise (a b : num) (e : exn) :
  num_truediv a b = Raise e -> e = OverflowError \/ e = ZeroDivisionError.
Proof.
  destruct a as [m|x], b as [n|y]; simpl; unfold int_truediv;
    repeat match goal with
           | |- context [if ?c then _ else _] => destruct c; simpl
           end;
    try discriminate; intro H; injection H; auto.
Qed.

(** ** The shape of a call *)

Lemma validate_raise_inv (params : list (string * pyobj)) (e : exn) :
  validate params = Raise e ->
  exists name x, In (name, x) params /\ offending x = true /\
                 e = ValueError (invalid_input_msg name x).
Proof.
  induction params as [|[n0 x0] params IH]; [discriminate|].
  destruct (offending x0) eqn:Hoff.
  - rewrite validate_cons_offending by exact Hoff.
    intro H. injection H as <-. exists n0, x0. repeat split; auto. now left.
  - rewrite validate_cons_ok by exact Hoff. intro H.
    destruct (IH H) as (name & x & Hin & Hx & He).
    exists name, x. repeat split; auto. now right.
Qed.

Lemma is_nonneg_not_offending (o : pyobj) :
  is_nonneg o = true -> offending o = false.
Proof.
  unfold is_nonneg, offending, isinstance_int_float, is_negative.
  destruct (as_num o) as [v|]; [|discriminate]. simpl.
  unfold num_ge, num_lt. now destruct (num_cmp v 0) as [[]|].
Qed.

Lemma validate_four (R f_I d_I lambda_env : pyobj) :
  validate [("R", R); ("f_I", f_I); ("d_I", d_I); ("lambda_env", lambda_env)]
  = Ok tt
  <-> offending R = false /\ offending f_I = false /\
      offending d_I = false /\ offending lambda_env = false.
Proof.
  rewrite validate_ok_iff. split.
  - intro H. repeat split.
    + apply (H ("R", R)). simpl; auto.
    + apply (H ("f_I", f_I)). simpl; auto.
    + apply (H ("d_I", d_I)). simpl; auto.
    + apply (H ("lambda_env", lambda_env)). simpl; auto 6.
  - intros (HR & Hf & Hd & Hl) p [<-|[<-|[<-|[<-|[]]]]]; assumption.
Qed.

(** A call returns a pair exactly when validation passes, the denominator
    is computed and nonzero, and the quotient is computed. *)
Lemma calculate_ci_ok_iff (log10 : F64.float -> F64.float)
      (R f_I d_I lambda_env : pyobj) (ci log_ci : F64.float) :
  calculate_ci log10 R f_I d_I lambda_env = Ok (ci, log_ci)
  <-> (offending R = false /\ offending f_I = false /\
       offending d_I = false /\ offending lambda_env = false)
      /\ exists den nu,
           py_mul lambda_env d_I = Ok den /\ num_eq den 0 = false /\
           py_mul R f_I = Ok nu /\ num_truediv nu den = Ok ci /\
           log_ci = if num_gt (NFloat ci) 0 then log10 ci else F64.neg_inf.
Proof.
  rewrite <- validate_four. unfold calculate_ci.
  destruct (validate _) as [[]|e]; simpl.
  2:{ split; [discriminate|]. intros [H _]. discriminate. }
  destruct (py_mul lambda_env d_I) as [den|e]; simpl.
  2:{ split; [discriminate|]. intros [_ (den & nu & H & _)]. discriminate. }
  destruct (num_eq den 0) eqn:Hz.
  { split; [discriminate|]. intros [_ (den' & nu & H & Hz' & _)].
    injection H as <-. congruence. }
  destruct (py_mul R f_I) as [nu|e]; simpl.
  2:{ split; [discriminate|].
      intros [_ (den' & nu & _ & _ & H & _)]. discriminate. }
  destruct (num_truediv nu den) as [q|e] eqn:Hq; simpl.
  2:{ split; [discriminate|].
      intros [_ (den' & nu' & H1 & _ & H2 & H3 & _)].
      injection H1 as <-. injection H2 as <-. congruence. }
  split.
  - intro H. injection H as <- <-. split; [reflexivity|].
    exists den, nu. repeat split; auto.
  - intros [_ (den' & nu' & H1 & _ & H2 & H3 & H4)].
    injection H1 as <-. injection H2 as <-.
    rewrite Hq in H3. injection H3 as <-. now subst log_ci.
Qed.

(** Validation lets only numbers through: the operators of the body never
    meet an operand of another type. *)
Lemma no_TypeError (log10 : F64.float -> F64.float)
      (R f_I d_I lambda_env : pyobj) :
  calculate_ci log10 R f_I d_I lambda_env <> Raise TypeError.
Proof.
  unfold calculate_ci.
  destruct (validate _) as [[]|e] eqn:V; simpl.
  2:{ apply validate_raise_inv in V. destruct V as (n & x & _ & _ & ->).
      discriminate. }
  apply validate_four in V. destruct V as (HR & Hf & Hd & Hl).
  destruct (offending_false _ HR) as (r & Er & _).
  destruct (offending_false _ Hf) as (f & Ef & _).
  destruct (offending_false _ Hd) as (d & Ed & _).
  destruct (offending_false _ Hl) as (l & El & _).
  rewrite (py_mul_num _ _ _ _ El Ed), (py_mul_num _ _ _ _ Er Ef).
  destruct (num_mul l d) as [den|e] eqn:M1; simpl.
  2:{ apply num_mul_raise in M1. subst e. discriminate. }
  destruct (num_eq den 0); [discriminate|].
  destruct (num_mul r f) as [nu|e] eqn:M2; simpl.
  2:{ apply num_mul_raise in M2. subst e. discriminate. }
  destruct (num_truediv nu den) as [q|e] eqn:D; simpl; [discriminate|].
  apply num_truediv_raise in D. destruct D as [-> | ->]; discriminate.
Qed.

(** The explicit check does replace the division's own: once the
    denominator has passed it, the division does not raise
    [ZeroDivisionError]. *)
Lemma no_ZeroDivisionError (log10 : F64.float -> F64.float)
      (R f_I d_I lambda_env : pyobj) :
  calculate_ci log10 R f_I d_I lambda_env <> Raise ZeroDivisionError.
Proof.
  unfold calculate_ci.
  destruct (validate _) as [[]|e] eqn:V; simpl.
  2:{ apply validate_raise_inv in V. destruct V as (n & x & _ & _ & ->).
      discriminate. }
  destruct (py_mul lambda_env d_I) as [den|e] eqn:M1; simpl.
  2:{ apply py_mul_raise in M1. destruct M1 as [-> | ->]; discriminate. }
  destruct (num_eq den 0) eqn:Hz; [discriminate|].
  destruct (py_mul R f_I) as [nu|e] eqn:M2; simpl.
  2:{ apply py_mul_raise in M2. destruct M2 as [-> | ->]; discriminate. }
  pose proof (num_truediv_nonzero_divisor nu den Hz) as D.
  destruct (num_truediv nu den) as [q|e]; simpl; [discriminate|].
  intro H. injection H as ->. now apply D.
Qed.

(** A call returns a pair, or raises [ValueError], or raises
    [OverflowError]. *)
Lemma calculate_ci_outcomes (log10 : F64.float -> F64.float)
      (R f_I d_I lambda_env : pyobj) :
  (exists ci log_ci,
     calculate_ci log10 R f_I d_I lambda_env = Ok (ci, log_ci))
  \/ (exists msg,
        calculate_ci log10 R f_I d_I lambda_env = Raise (ValueError msg))
  \/ calculate_ci log10 R f_I d_I lambda_env = Raise OverflowError.
Proof.
  pose proof (no_TypeError log10 R f_I d_I lambda_env) as T.
  pose proof (no_ZeroDivisionError log10 R f_I d_I lambda_env) as Z.
  destruct (calculate_ci log10 R f_I d_I lambda_env) as [[ci log_ci]|[msg| | |]];
    eauto; contradiction.
Qed.

(** ** Rounding to infinity

    Where a rounded value leaves the range of doubles: the exponent after
    the two shifts of [binary_round_aux] decides, and for an integer
    mantissa the round bit at the last binade does. *)

Lemma fexp_eq (z : Z) :
  fexp F64.prec F64.emax z = Z.max (z - 53) (-1074).
Proof. reflexivity. Qed.

Lemma Zdigits2_nonneg (m : Z) : 0 <= Zdigits2 m.
Proof. destruct m; simpl; lia. Qed.

Lemma Zdigits2_le (m j : Z) : 0 <= j -> 0 <= m < 2 ^ j -> Zdigits2 m <= j.
Proof.
  intros Hj [H0 H]. destruct m as [|p|p]; simpl; try lia.
  pose proof (digits2_pos_bounds p) as [Lo _].
  destruct (Z_le_gt_dec (Z.pos (digits2_pos p)) j) as [L|G]; [exact L|].
  exfalso. assert (2 ^ j <= 2 ^ (Z.pos (digits2_pos p) - 1))
    by (apply Z.pow_le_mono_r; lia). lia.
Qed.

Lemma Zdigits2_gt (m j : Z) : 0 <= j -> 2 ^ j <= m -> j < Zdigits2 m.
Proof.
  intros Hj H. assert (0 < 2 ^ j) by (apply Z.pow_pos_nonneg; lia).
  destruct m as [|p|p]; simpl; try lia.
  pose proof (digits2_pos_bounds p) as [_ Hi].
  destruct (Z_lt_le_dec j (Z.pos (digits2_pos p))) as [L|G]; [exact L|].
  exfalso. assert (2 ^ Z.pos (digits2_pos p) <= 2 ^ j)
    by (apply Z.pow_le_mono_r; lia). lia.
Qed.

Lemma Zdigits2_upper (m : Z) : 0 <= m -> m < 2 ^ Zdigits2 m.
Proof.
  destruct m as [|p|p]; simpl; try lia. intros _.
  apply digits2_pos_bounds.
Qed.

(** The exponent and the mantissa after the shift of [shr_fexp]. *)
Lemma shr_fexp_snd (m e : Z) (l : location) :
  snd (shr_fexp F64.prec F64.emax m e l)
  = Z.max e (fexp F64.prec F64.emax (Zdigits2 m + e)).
Proof.
  unfold shr_fexp, shr.
  destruct (fexp F64.prec F64.emax (Zdigits2 m + e) - e) eqn:K; simpl; lia.
Qed.

Lemma shr_record_of_loc_m (m : Z) (l : location) :
  shr_m (shr_record_of_loc m l) = m.
Proof. destruct l as [|[]]; reflexivity. Qed.

Lemma shr_fexp_m (m e : Z) (l : location) :
  0 <= m ->
  shr_m (fst (shr_fexp F64.prec F64.emax m e l))
  = m / 2 ^ (Z.max e (fexp F64.prec F64.emax (Zdigits2 m + e)) - e).
Proof.
  intro Hm. unfold shr_fexp, shr.
  destruct (fexp F64.prec F64.emax (Zdigits2 m + e) - e) as [|k|k] eqn:K;
    simpl fst.
  - replace (Z.max e _ - e) with 0 by lia.
    now rewrite shr_record_of_loc_m, Z.div_1_r.
  - replace (Z.max e _ - e) with (Z.pos k) by lia.
    rewrite iter_shr_1_div by (rewrite shr_record_of_loc_m; exact Hm).
    now rewrite shr_record_of_loc_m.
  - replace (Z.max e _ - e) with 0 by lia.
    now rewrite shr_record_of_loc_m, Z.div_1_r.
Qed.

(** Rounding to nearest adds at most one unit. *)
Lemma round_nearest_even_bounds (m : Z) (l : location) :
  m <= round_nearest_even m l <= m + 1.
Proof.
  destruct l as [|[]]; simpl; try lia. destruct (Z.even m); lia.
Qed.

(** The result of rounding is infinite only if the final exponent is above
    the largest one. *)
Lemma binary_round_aux_inf_exponent (s : bool) (m e : Z) (l : location) :
  F64.is_inf (binary_round_aux F64.prec F64.emax s m e l) = true ->
  971 < snd (shr_fexp F64.prec F64.emax
               (round_nearest_even
                  (shr_m (fst (shr_fexp F64.prec F64.emax m e l)))
                  (loc_of_shr_record (fst (shr_fexp F64.prec F64.emax m e l))))
               (snd (shr_fexp F64.prec F64.emax m e l)) loc_Exact).
Proof.
  unfold binary_round_aux.
  destruct (shr_fexp F64.prec F64.emax m e l) as [mrs e']. simpl fst. simpl snd.
  destruct (shr_fexp F64.prec F64.emax _ e' loc_Exact) as [mrs' e'']. simpl snd.
  destruct (shr_m mrs'); try discriminate.
  unfold F64.emax, F64.prec.
  destruct (Z.leb_spec e'' (1024 - 53)); [discriminate|]. lia.
Qed.

Lemma binary_round_aux_inf_iff (s : bool) (m : positive) (e : Z) (l : location) :
  -1074 <= e ->
  F64.is_inf (binary_round_aux F64.prec F64.emax s (Z.pos m) e l)
  = negb (snd (shr_fexp F64.prec F64.emax
               (round_nearest_even
                  (shr_m (fst (shr_fexp F64.prec F64.emax (Z.pos m) e l)))
                  (loc_of_shr_record
                     (fst (shr_fexp F64.prec F64.emax (Z.pos m) e l))))
               (snd (shr_fexp F64.prec F64.emax (Z.pos m) e l)) loc_Exact)
          <=? 971).
Proof.
  intro He. unfold binary_round_aux.
  destruct (shr_fexp_pos m e l He) as [H1 E1].
  destruct (shr_fexp F64.prec F64.emax (Z.pos m) e l) as [mrs e'].
  simpl in H1, E1. simpl fst. simpl snd.
  pose proof (round_nearest_even_pos _ (loc_of_shr_record mrs) H1) as H2.
  destruct (round_nearest_even (shr_m mrs) (loc_of_shr_record mrs))
    as [|m2|m2]; try lia.
  destruct (shr_fexp_pos m2 e' loc_Exact E1) as [H3 _].
  destruct (shr_fexp F64.prec F64.emax (Z.pos m2) e' loc_Exact) as [mrs' e''].
  simpl in H3. simpl snd.
  destruct (shr_m mrs'); try lia.
  unfold F64.emax, F64.prec. change (1024 - 53) with 971.
  now destruct (e'' <=? 971).
Qed.

(** A value below [2 ^ 1023] does not round to infinity. *)
Lemma binary_round_aux_not_inf (s : bool) (m e : Z) (l : location) :
  0 <= m -> e <= 971 -> Zdigits2 m + e <= 1023 ->
  F64.is_inf (binary_round_aux F64.prec F64.emax s m e l) = false.
Proof.
  intros Hm He Hd.
  destruct (F64.is_inf (binary_round_aux F64.prec F64.emax s m e l)) eqn:I;
    [|reflexivity].
  exfalso. apply binary_round_aux_inf_exponent in I.
  rewrite !shr_fexp_snd in I. rewrite shr_fexp_m in I by exact Hm.
  rewrite !fexp_eq in I.
  set (d := Zdigits2 m) in *.
  set (e' := Z.max e (Z.max (d + e - 53) (-1074))) in *.
  set (h := m / 2 ^ (e' - e)) in *.
  set (m1 := round_nearest_even h _) in *.
  assert (Hk : 0 <= e' - e) by (unfold e'; lia).
  assert (P : 0 < 2 ^ (e' - e)) by (apply Z.pow_pos_nonneg; lia).
  assert (Hh : 0 <= h) by (apply Z.div_pos; lia).
  assert (Hm1 : h <= m1 <= h + 1) by apply round_nearest_even_bounds.
  assert (Dh : Zdigits2 h <= Z.max (d - (e' - e)) 0).
  { apply Zdigits2_le; [lia|]. split; [exact Hh|].
    pose proof (Zdigits2_upper m Hm) as U. fold d in U.
    pose proof (Zdigits2_nonneg m) as N. fold d in N.
    destruct (Z_le_gt_dec (e' - e) d) as [L|G].
    - replace (Z.max (d - (e' - e)) 0) with (d - (e' - e)) by lia.
      apply Z.div_lt_upper_bound; [exact P|].
      rewrite <- Z.pow_add_r by lia. now replace (e' - e + (d - (e' - e))) with d by lia.
    - replace (Z.max (d - (e' - e)) 0) with 0 by lia. simpl.
      assert (h = 0); [|lia]. apply Z.div_small. split; [exact Hm|].
      apply Z.lt_le_trans with (2 ^ d); [exact U|].
      apply Z.pow_le_mono_r; lia. }
  assert (D1 : Zdigits2 m1 <= Zdigits2 h + 1).
  { pose proof (Zdigits2_nonneg h). apply Zdigits2_le; [lia|].
    split; [lia|]. pose proof (Zdigits2_upper h Hh).
    rewrite Z.pow_add_r by lia. change (2 ^ 1) with 2. lia. }
  lia.
Qed.

(** The round bit after [p] right shifts is bit [p - 1] of the mantissa. *)
Lemma shr_1_r (mrs : shr_record) :
  0 <= shr_m mrs -> shr_r (shr_1 mrs) = Z.odd (shr_m mrs).
Proof. destruct mrs as [[|[p|p|]|p] r s]; simpl; intro H; try reflexivity; lia. Qed.

Lemma iter_shr_1_r (p : positive) :
  forall mrs, 0 <= shr_m mrs ->
    shr_r (iter_pos shr_1 p mrs) = Z.testbit (shr_m mrs) (Z.pos p - 1).
Proof.
  induction p as [p IH|p IH|]; intros mrs H; simpl iter_pos.
  - rewrite IH by (apply iter_shr_1_nonneg, shr_1_nonneg, H).
    rewrite iter_shr_1_div by (apply shr_1_nonneg, H).
    rewrite shr_1_div2 by exact H.
    rewrite Z.div_pow2_bits by lia.
    change (shr_m mrs / 2) with (shr_m mrs / 2 ^ 1).
    rewrite Z.div_pow2_bits by lia.
    f_equal. lia.
  - rewrite IH by (apply iter_shr_1_nonneg, H).
    rewrite iter_shr_1_div by exact H.
    rewrite Z.div_pow2_bits by lia.
    f_equal. lia.
  - rewrite shr_1_r by exact H. symmetry. apply Z.bit0_odd.
Qed.

Lemma shr_fexp_r (m e : Z) (l : location) (k : positive) :
  0 <= m ->
  fexp F64.prec F64.emax (Zdigits2 m + e) - e = Z.pos k ->
  shr_r (fst (shr_fexp F64.prec F64.emax m e l)) = Z.testbit m (Z.pos k - 1).
Proof.
  intros Hm K. unfold shr_fexp, shr. rewrite K. simpl fst.
  rewrite iter_shr_1_r by (rewrite shr_record_of_loc_m; exact Hm).
  now rewrite shr_record_of_loc_m.
Qed.

Lemma round_nearest_even_record (mrs : shr_record) :
  round_nearest_even (shr_m mrs) (loc_of_shr_record mrs)
  = if shr_r mrs
    then if shr_s mrs then shr_m mrs + 1
         else if Z.even (shr_m mrs) then shr_m mrs else shr_m mrs + 1
    else shr_m mrs.
Proof. destruct mrs as [m [|] [|]]; reflexivity. Qed.

Lemma Zdigits2_eq (m j : Z) :
  0 < j -> 2 ^ (j - 1) <= m < 2 ^ j -> Zdigits2 m = j.
Proof.
  intros Hj [Lo Hi].
  assert (0 < 2 ^ (j - 1)) by (apply Z.pow_pos_nonneg; lia).
  pose proof (Zdigits2_le m j). pose proof (Zdigits2_gt m (j - 1)). lia.
Qed.

Lemma float_overflow_bound_eq : float_overflow_bound = (2 ^ 54 - 1) * 2 ^ 970.
Proof. vm_compute. reflexivity. Qed.

(** An integer mantissa at exponent 0 rounds to infinity exactly from
    [2 ^ 1024 - 2 ^ 970] on, whatever lies below the unit. *)
Lemma binary_round_aux_int_inf (s : bool) (m : positive) (l : location) :
  F64.is_inf (binary_round_aux F64.prec F64.emax s (Z.pos m) 0 l)
  = (float_overflow_bound <=? Z.pos m).
Proof.
  pose proof (digits2_pos_bounds m) as [Lo Hi].
  set (d := Z.pos (digits2_pos m)) in *.
  assert (Hd : 0 < d) by (unfold d; lia).
  assert (B1 : 2 ^ 1023 < float_overflow_bound) by (vm_compute; reflexivity).
  assert (B2 : float_overflow_bound < 2 ^ 1024) by (vm_compute; reflexivity).
  destruct (Z_le_gt_dec d 1023) as [D1|D1].
  { rewrite binary_round_aux_not_inf by (simpl Zdigits2; fold d; lia).
    symmetry. apply Z.leb_gt.
    assert (2 ^ d <= 2 ^ 1023) by (apply Z.pow_le_mono_r; lia). lia. }
  rewrite binary_round_aux_inf_iff by lia.
  rewrite !shr_fexp_snd, shr_fexp_m, !fexp_eq by lia.
  simpl (Zdigits2 (Z.pos m)). fold d.
  replace (Z.max 0 (Z.max (d + 0 - 53) (-1074))) with (d - 53) by lia.
  rewrite Z.sub_0_r.
  set (h := Z.pos m / 2 ^ (d - 53)).
  assert (P : 0 < 2 ^ (d - 53)) by (apply Z.pow_pos_nonneg; lia).
  assert (Hh : 2 ^ 52 <= h < 2 ^ 53).
  { unfold h. split.
    - apply Z.div_le_lower_bound; [exact P|].
      rewrite <- Z.pow_add_r by lia.
      now replace (d - 53 + 52) with (d - 1) by lia.
    - apply Z.div_lt_upper_bound; [exact P|].
      rewrite <- Z.pow_add_r by lia.
      now replace (d - 53 + 53) with d by lia. }
  set (m1 := round_nearest_even h _).
  assert (Hm1 : h <= m1 <= h + 1) by apply round_nearest_even_bounds.
  destruct (Z_le_gt_dec 1025 d) as [D2|D2].
  { assert (2 ^ 1024 <= 2 ^ (d - 1)) by (apply Z.pow_le_mono_r; lia).
    replace (float_overflow_bound <=? Z.pos m) with true
      by (symmetry; apply Z.leb_le; lia).
    apply negb_true_iff, Z.leb_gt. lia. }
  assert (D : d = 1024) by lia. clear D1 D2.
  (* the mantissa is [u * 2 ^ 970 + v]; [u] is [h] followed by the round bit *)
  assert (K : fexp F64.prec F64.emax (Zdigits2 (Z.pos m) + 0) - 0 = Z.pos 971).
  { rewrite fexp_eq. simpl Zdigits2. fold d. lia. }
  pose proof (shr_fexp_r (Z.pos m) 0 l 971 ltac:(lia) K) as R.
  change (Z.pos 971 - 1) with 970 in R.
  pose proof (round_nearest_even_record
                (fst (shr_fexp F64.prec F64.emax (Z.pos m) 0 l))) as E.
  rewrite R in E.
  rewrite shr_fexp_m, fexp_eq in E by lia.
  simpl (Zdigits2 (Z.pos m)) in E. fold d in E.
  replace (Z.max 0 (Z.max (d + 0 - 53) (-1074)) - 0) with (d - 53) in E by lia.
  fold h in E. fold m1 in E.
  rewrite D in *.
  set (u := Z.pos m / 2 ^ 970).
  assert (A : 0 < 2 ^ 970) by (apply Z.pow_pos_nonneg; lia).
  assert (Hu : h = u / 2).
  { unfold h, u. replace (d - 53) with (970 + 1) by lia.
    rewrite Z.pow_add_r by lia. change (2 ^ 1) with 2.
    rewrite Z.div_div by lia. reflexivity. }
  assert (Hb : Z.testbit (Z.pos m) 970 = Z.odd u).
  { unfold u. rewrite <- Z.bit0_odd, Z.div_pow2_bits by lia. reflexivity. }
  assert (Hv : Z.pos m = u * 2 ^ 970 + Z.pos m mod 2 ^ 970).
  { unfold u. rewrite Z.mul_comm. apply Z.div_mod. lia. }
  assert (V : 0 <= Z.pos m mod 2 ^ 970 < 2 ^ 970) by (apply Z.mod_pos_bound; lia).
  assert (Ht : (float_overflow_bound <=? Z.pos m) = (2 ^ 54 - 1 <=? u)).
  { rewrite float_overflow_bound_eq.
    set (a := 2 ^ 970) in *. set (v := Z.pos m mod a) in *.
    destruct (Z.leb_spec (2 ^ 54 - 1) u) as [L|L].
    - apply Z.leb_le. rewrite Hv.
      assert ((2 ^ 54 - 1) * a <= u * a) by (apply Z.mul_le_mono_nonneg_r; lia).
      lia.
    - apply Z.leb_gt. rewrite Hv.
      assert ((u + 1) * a <= (2 ^ 54 - 1) * a)
        by (apply Z.mul_le_mono_nonneg_r; lia).
      lia. }
  rewrite Ht. rewrite Hb in E.
  pose proof (Z.div_mod u 2 ltac:(lia)) as U. rewrite <- Hu in U.
  pose proof (Zmod_odd u) as O.
  change (2 ^ 52) with 4503599627370496 in *.
  change (2 ^ 53) with 9007199254740992 in *.
  change (2 ^ 54 - 1) with 18014398509481983.
  assert (Dm1 : m1 < 9007199254740992 -> Zdigits2 m1 = 53).
  { intro. apply Zdigits2_eq; [lia|].
    change (2 ^ (53 - 1)) with 4503599627370496.
    change (2 ^ 53) with 9007199254740992. lia. }
  destruct (Z.odd u) eqn:Ou.
  - (* round bit set *)
    destruct (Z.eq_dec h 9007199254740991) as [Eh|Nh].
    + assert (Em1 : m1 = 9007199254740992).
      { rewrite E, Eh. destruct (shr_s _); reflexivity. }
      rewrite Em1. change (Zdigits2 9007199254740992) with 54.
      replace (18014398509481983 <=? u) with true
        by (symmetry; apply Z.leb_le; lia).
      reflexivity.
    + rewrite Dm1 by lia.
      replace (18014398509481983 <=? u) with false
        by (symmetry; apply Z.leb_gt; lia).
      reflexivity.
  - rewrite E. rewrite (Zdigits2_eq h 53) by
      (change (2 ^ (53 - 1)) with 4503599627370496;
       change (2 ^ 53) with 9007199254740992; lia).
    replace (18014398509481983 <=? u) with false
      by (symmetry; apply Z.leb_gt; lia).
    reflexivity.
Qed.

Lemma pos_iter_xO (p n : positive) :
  Z.pos (Pos.iter xO p n) = Z.pos p * 2 ^ Z.pos n.
Proof.
  induction n as [|n IH] using Pos.peano_ind.
  - simpl Pos.iter. change (2 ^ 1) with 2. lia.
  - rewrite Pos.iter_succ, Pos2Z.inj_succ, Z.pow_succ_r by lia.
    replace (Z.pos (Pos.iter xO p n)~0) with (2 * Z.pos (Pos.iter xO p n)) by lia.
    rewrite IH. ring.
Qed.

(** [float(n)] overflows exactly for [|n| >= 2 ^ 1024 - 2 ^ 970]. *)
Lemma of_Z_inf (n : Z) :
  F64.is_inf (F64.of_Z n) = (float_overflow_bound <=? Z.abs n).
Proof.
  assert (B : 2 ^ 53 < float_overflow_bound) by (vm_compute; reflexivity).
  destruct n as [|p|p]; [vm_compute; reflexivity| |];
    unfold F64.of_Z, binary_normalize, binary_round, shl_align;
    simpl Z.abs;
    pose proof (digits2_pos_bounds p) as [Lo Hi];
    rewrite fexp_eq;
    set (d := Z.pos (digits2_pos p)) in *;
    (destruct (Z.max (d + 0 - 53) (-1074) - 0) as [|k|k] eqn:K;
       try apply binary_round_aux_int_inf);
    assert (Hd : d <= 52) by lia;
    assert (2 ^ d <= 2 ^ 53) by (apply Z.pow_le_mono_r; lia);
    (replace (float_overflow_bound <=? Z.pos p) with false
      by (symmetry; apply Z.leb_gt; lia));
    (apply binary_round_aux_not_inf; [lia|lia|]);
    (assert (Zdigits2 (Z.pos (Pos.iter xO p k)) <= d + Z.pos k); [|lia]);
    (apply Zdigits2_le; [lia|]); (split; [lia|]);
    rewrite pos_iter_xO, Z.pow_add_r by lia;
    (apply Z.mul_lt_mono_pos_r; [apply Z.pow_pos_nonneg; lia|exact Hi]).
Qed.

(** The quotient of two integers overflows exactly when its integer part is
    at least [2 ^ 1024 - 2 ^ 970]. *)
Lemma div_int_inf (sa sb : bool) (a b : positive) :
  F64.is_inf (F64.div (S754_finite sa a 0) (S754_finite sb b 0))
  = (float_overflow_bound <=? Z.pos a / Z.pos b).
Proof.
  assert (B : 2 ^ 53 < float_overflow_bound) by (vm_compute; reflexivity).
  pose proof (digits2_pos_bounds a) as [La Ha].
  pose proof (digits2_pos_bounds b) as [Lb Hb].
  unfold F64.div, SFdiv, SFdiv_core_binary. simpl Zdigits2.
  rewrite fexp_eq.
  set (d1 := Z.pos (digits2_pos a)) in *.
  set (d2 := Z.pos (digits2_pos b)) in *.
  assert (P2 : 0 < 2 ^ (d2 - 1)) by (apply Z.pow_pos_nonneg; lia).
  set (e' := Z.min (Z.max (d1 + 0 - (d2 + 0) - 53) (-1074)) (0 - 0)).
  set (s := 0 - 0 - e').
  set (m' := match s with
             | 0 => Z.pos a
             | Z.pos _ => Z.shiftl (Z.pos a) s
             | Z.neg _ => 0
             end).
  assert (Hs : 0 <= s) by (unfold s, e'; lia).
  assert (Hm' : m' = Z.pos a * 2 ^ s).
  { unfold m'. destruct s as [|k|k] eqn:S; try lia.
    apply Z.shiftl_mul_pow2. lia. }
  destruct (Z.div_eucl m' (Z.pos b)) as [q r] eqn:E.
  assert (Hq : q = m' / Z.pos b) by (unfold Z.div; now rewrite E).
  clearbody m'. subst m'. clear E.
  destruct (Z_le_gt_dec 53 (d1 - d2)) as [D|D].
  - (* a quotient of at least 53 bits is computed at exponent 0 *)
    assert (e' = 0) by (unfold e'; lia).
    assert (s = 0) by (unfold s; lia).
    clearbody s e'. subst s e'.
    rewrite Z.mul_1_r in Hq.
    assert (0 < q).
    { subst q. apply Z.div_str_pos. split; [lia|].
      assert (2 ^ d2 <= 2 ^ (d1 - 1)) by (apply Z.pow_le_mono_r; lia). lia. }
    destruct q as [|q|q]; try lia.
    rewrite binary_round_aux_int_inf. now rewrite Hq.
  - (* a smaller quotient stays below 2 ^ 53 *)
    assert (He : e' = - s) by (unfold s; lia).
    assert (He' : -1074 <= e' <= 0) by (unfold e'; lia).
    assert (S2 : 0 < 2 ^ s) by (apply Z.pow_pos_nonneg; lia).
    assert (Q0 : 0 <= q) by (subst q; apply Z.div_pos; lia).
    assert (Qb : q < 2 ^ (53 + s)).
    { subst q. apply Z.div_lt_upper_bound; [lia|].
      rewrite Z.pow_add_r by lia.
      assert (2 ^ d1 <= 2 ^ (d2 - 1) * 2 ^ 53).
      { rewrite <- Z.pow_add_r by lia. apply Z.pow_le_mono_r; lia. }
      assert (Z.pos a * 2 ^ s < 2 ^ d1 * 2 ^ s)
        by (apply Z.mul_lt_mono_pos_r; lia).
      assert (2 ^ d1 * 2 ^ s <= 2 ^ (d2 - 1) * 2 ^ 53 * 2 ^ s)
        by (apply Z.mul_le_mono_nonneg_r; lia).
      assert (2 ^ (d2 - 1) * (2 ^ 53 * 2 ^ s) <= Z.pos b * (2 ^ 53 * 2 ^ s))
        by (apply Z.mul_le_mono_nonneg_r; lia).
      lia. }
    rewrite binary_round_aux_not_inf; [|exact Q0|lia|].
    + symmetry. apply Z.leb_gt.
      apply Z.lt_trans with (2 ^ 53); [|exact B].
      apply Z.div_lt_upper_bound; [lia|].
      assert (2 ^ d1 <= 2 ^ (d2 - 1) * 2 ^ 53).
      { rewrite <- Z.pow_add_r by lia. apply Z.pow_le_mono_r; lia. }
      assert (2 ^ (d2 - 1) * 2 ^ 53 <= Z.pos b * 2 ^ 53)
        by (apply Z.mul_le_mono_nonneg_r; lia).
      lia.
    + assert (Zdigits2 q <= 53 + s) by (apply Zdigits2_le; lia). lia.
Qed.

(** ** Where the arithmetic raises [OverflowError] *)

Lemma to_float_overflow (v : num) :
  if int_overflows v then to_float v = Raise OverflowError
  else exists x, to_float v = Ok x.
Proof.
  destruct v as [n|x]; simpl; [|eauto].
  rewrite of_Z_inf. destruct (float_overflow_bound <=? Z.abs n); eauto.
Qed.

Lemma num_mul_overflow (a b : num) :
  if mul_overflows a b then num_mul a b = Raise OverflowError
  else exists c, num_mul a b = Ok c.
Proof.
  pose proof (to_float_overflow a) as Ha.
  pose proof (to_float_overflow b) as Hb.
  destruct a as [m|x], b as [n|y]; unfold mul_overflows, num_mul.
  - eexists; reflexivity.
  - rewrite orb_false_r. destruct (int_overflows (NInt m)).
    + now rewrite Ha.
    + destruct Ha as (x & ->). simpl. eexists; reflexivity.
  - change (int_overflows (NFloat x) || int_overflows (NInt n))
      with (int_overflows (NInt n)).
    destruct (int_overflows (NInt n)).
    + simpl to_float at 1. cbn [bind]. now rewrite Hb.
    + destruct Hb as (y & ->). simpl. eexists; reflexivity.
  - simpl. eexists; reflexivity.
Qed.

Lemma int_truediv_overflow (m n : Z) :
  int_truediv m n = Raise OverflowError
  <-> float_overflow_bound <= Z.abs m / Z.abs n.
Proof.
  assert (B : 0 < float_overflow_bound) by (vm_compute; reflexivity).
  unfold int_truediv.
  destruct (Z.eqb_spec n 0) as [->|Hn].
  { simpl Z.abs. rewrite Z.div_0_r. split; [discriminate|lia]. }
  destruct (Z.eqb_spec m 0) as [->|Hm].
  { simpl Z.abs. rewrite Z.div_0_l by lia. split; [discriminate|lia]. }
  rewrite div_int_inf.
  rewrite !Z2Pos.id by lia.
  destruct (Z.leb_spec float_overflow_bound (Z.abs m / Z.abs n)).
  - split; [intros _; assumption|reflexivity].
  - split; [discriminate|lia].
Qed.

Lemma num_truediv_overflow (a b : num) :
  num_truediv a b = Raise OverflowError <-> truediv_overflows a b = true.
Proof.
  pose proof (to_float_overflow a) as Ha.
  pose proof (to_float_overflow b) as Hb.
  destruct a as [m|x], b as [n|y]; unfold truediv_overflows, num_truediv.
  - rewrite int_truediv_overflow. symmetry. apply Z.leb_le.
  - rewrite orb_false_r. destruct (int_overflows (NInt m)).
    + rewrite Ha. simpl. tauto.
    + destruct Ha as (x & ->). simpl.
      destruct (F64.is_zero y); split; discriminate.
  - change (int_overflows (NFloat x) || int_overflows (NInt n))
      with (int_overflows (NInt n)).
    destruct (int_overflows (NInt n)).
    + simpl to_float at 1. cbn [bind]. rewrite Hb. simpl. tauto.
    + destruct Hb as (y & ->). simpl.
      destruct (F64.is_zero y); split; discriminate.
  - simpl. destruct (F64.is_zero y); split; discriminate.
Qed.

(** The product of two operands that fit is an operand that converts. *)
Lemma product_fits_mul (a b : num) :
  product_fits a b = true ->
  mul_overflows a b = false
  /\ forall c, num_mul a b = Ok c -> int_overflows c = false.
Proof.
  destruct a as [m|x], b as [n|y]; unfold product_fits, mul_overflows;
    intro H.
  - split; [reflexivity|]. simpl. intros c E. injection E as <-.
    simpl. apply Z.leb_gt. now apply Z.ltb_lt.
  - apply negb_true_iff in H. split; [exact H|].
    intros c E. apply num_mul_inv in E.
    destruct E as [(m' & n' & _ & E & _)|(x' & y' & _ & _ & ->)];
      [discriminate|reflexivity].
  - apply negb_true_iff in H. split; [exact H|].
    intros c E. apply num_mul_inv in E.
    destruct E as [(m' & n' & E & _)|(x' & y' & _ & _ & ->)];
      [discriminate|reflexivity].
  - split; [reflexivity|].
    intros c E. simpl in E. now injection E as <-.
Qed.

Lemma truediv_fits (a b : num) :
  int_overflows a = false -> int_overflows b = false ->
  truediv_overflows a b = false.
Proof.
  destruct a as [m|x], b as [n|y]; unfold truediv_overflows;
    intros Ha Hb; try (now rewrite Ha, Hb).
  simpl in Ha. apply Z.leb_gt in Ha. apply Z.leb_gt.
  apply Z.le_lt_trans with (Z.abs m); [|exact Ha].
  destruct (Z.eq_dec (Z.abs n) 0) as [->|N].
  - rewrite Z.div_0_r. lia.
  - apply Z.div_le_upper_bound; [lia|]. nia.
Qed.

(** With four numbers [>= 0] as arguments the validation loop passes, and
    a call is the arithmetic of the body on their values. *)
Lemma calculate_ci_body (log10 : F64.float -> F64.float)
      (R f_I d_I lambda_env : pyobj) (r f d l : num) :
  as_num R = Some r -> as_num f_I = Some f ->
  as_num d_I = Some d -> as_num lambda_env = Some l ->
  num_ge r 0 = true -> num_ge f 0 = true ->
  num_ge d 0 = true -> num_ge l 0 = true ->
  calculate_ci log10 R f_I d_I lambda_env
  = (den <- num_mul l d ;;
     if num_eq den 0 then Raise (ValueError denominator_msg)
     else nu <- num_mul r f ;;
          ci <- num_truediv nu den ;;
          Ok (ci, if num_gt (NFloat ci) 0 then log10 ci else F64.neg_inf)).
Proof.
  intros Er Ef Ed El Hr Hf Hd Hl.
  assert (V : validate [("R", R); ("f_I", f_I); ("d_I", d_I);
                        ("lambda_env", lambda_env)] = Ok tt).
  { apply validate_four.
    repeat split; apply is_nonneg_not_offending; unfold is_nonneg;
      [rewrite Er|rewrite Ef|rewrite Ed|rewrite El]; assumption. }
  unfold calculate_ci. rewrite V. cbn [bind].
  now rewrite (py_mul_num _ _ _ _ El Ed), (py_mul_num _ _ _ _ Er Ef).
Qed.

(** ** The formula *)

(** C1 as the specification states it fails on an [int] beyond the range
    of doubles:
    [calculate_ci(10**400, 1, 1, 1)] has four numeric arguments, all [>= 0],
    and the denominator [1 * 1] is nonzero, yet [10**400 / 1] raises
    [OverflowError] and no pair is returned. *)
Lemma calculate_ci_huge_int_raises :
  is_nonneg (PyInt (10 ^ 400)) = true
  /\ is_nonneg (PyInt 1) = true
  /\ py_mul (PyInt 1) (PyInt 1) = Ok (NInt 1)
  /\ num_eq (NInt 1) 0 = false
  /\ (forall log10 : F64.float -> F64.float,
        calculate_ci log10 (PyInt (10 ^ 400)) (PyInt 1) (PyInt 1) (PyInt 1)
        = Raise OverflowError).
Proof.
  split; [|split; [|split; [|split]]]; vm_compute; reflexivity.
Qed.

(** C1 (amended). For every call whose four arguments are numeric and
    [>= 0] and whose denominator [lambda_env * d_I] is nonzero, either
    [OverflowError] is raised or the call returns the pair
    [CI = (R * f_I) / (lambda_env * d_I)] and [log_CI = log10(CI)] when
    [CI > 0].  [OverflowError] is raised exactly when an [int] operand of a
    product or of the quotient whose other operand is a float has magnitude
    [>= 2**1024 - 2**970] (the least [int] that [float()] refuses), or when
    numerator and denominator are both [int]s and their integer quotient is
    [>= 2**1024 - 2**970].  In particular the pair is returned whenever
    every [int] argument, and the product of two [int] arguments that form
    the numerator or the denominator, is below [2**1024 - 2**970]; and four
    floats always get the pair, with IEEE multiplication and division. *)
Theorem calculate_ci_formula (log10 : F64.float -> F64.float) :
  (forall (R f_I d_I lambda_env : pyobj) (r f d l : num),
     as_num R = Some r -> as_num f_I = Some f ->
     as_num d_I = Some d -> as_num lambda_env = Some l ->
     num_ge r 0 = true -> num_ge f 0 = true ->
     num_ge d 0 = true -> num_ge l 0 = true ->
     (forall den, num_mul l d = Ok den -> num_eq den 0 = false) ->
     (mul_overflows l d = true \/ mul_overflows r f = true ->
      calculate_ci log10 R f_I d_I lambda_env = Raise OverflowError)
     /\ (mul_overflows l d = false -> mul_overflows r f = false ->
         exists den nu : num,
           num_mul l d = Ok den /\ num_mul r f = Ok nu
           /\ (truediv_overflows nu den = true ->
               calculate_ci log10 R f_I d_I lambda_env = Raise OverflowError)
           /\ (truediv_overflows nu den = false ->
               exists ci : F64.float,
                 num_truediv nu den = Ok ci
                 /\ calculate_ci log10 R f_I d_I lambda_env
                    = Ok (ci, if num_gt (NFloat ci) 0 then log10 ci
                              else F64.neg_inf))))
  /\ (forall (R f_I d_I lambda_env : pyobj) (r f d l : num),
        as_num R = Some r -> as_num f_I = Some f ->
        as_num d_I = Some d -> as_num lambda_env = Some l ->
        num_ge r 0 = true -> num_ge f 0 = true ->
        num_ge d 0 = true -> num_ge l 0 = true ->
        (forall den, num_mul l d = Ok den -> num_eq den 0 = false) ->
        product_fits r f = true -> product_fits l d = true ->
        exists (den nu : num) (ci : F64.float),
          num_mul l d = Ok den /\ num_mul r f = Ok nu
          /\ num_truediv nu den = Ok ci
          /\ calculate_ci log10 R f_I d_I lambda_env
             = Ok (ci, if num_gt (NFloat ci) 0 then log10 ci
                       else F64.neg_inf))
  /\ (forall R f_I d_I lambda_env : F64.float,
        num_ge (NFloat R) 0 = true -> num_ge (NFloat f_I) 0 = true ->
        num_ge (NFloat d_I) 0 = true -> num_ge (NFloat lambda_env) 0 = true ->
        num_eq (NFloat (F64.mul lambda_env d_I)) 0 = false ->
        calculate_ci log10 (PyFloat R) (PyFloat f_I) (PyFloat d_I)
                     (PyFloat lambda_env)
        = Ok (F64.div (F64.mul R f_I) (F64.mul lambda_env d_I),
              if num_gt (NFloat (F64.div (F64.mul R f_I)
                                         (F64.mul lambda_env d_I))) 0
              then log10 (F64.div (F64.mul R f_I) (F64.mul lambda_env d_I))
              else F64.neg_inf)).
Proof.
  assert (G : forall (R f_I d_I lambda_env : pyobj) (r f d l : num),
             as_num R = Some r -> as_num f_I = Some f ->
             as_num d_I = Some d -> as_num lambda_env = Some l ->
             num_ge r 0 = true -> num_ge f 0 = true ->
             num_ge d 0 = true -> num_ge l 0 = true ->
             (forall den, num_mul l d = Ok den -> num_eq den 0 = false) ->
             (mul_overflows l d = true \/ mul_overflows r f = true ->
              calculate_ci log10 R f_I d_I lambda_env = Raise OverflowError)
             /\ (mul_overflows l d = false -> mul_overflows r f = false ->
                 exists den nu : num,
                   num_mul l d = Ok den /\ num_mul r f = Ok nu
                   /\ (truediv_overflows nu den = true ->
                       calculate_ci log10 R f_I d_I lambda_env
                       = Raise OverflowError)
                   /\ (truediv_overflows nu den = false ->
                       exists ci : F64.float,
                         num_truediv nu den = Ok ci
                         /\ calculate_ci log10 R f_I d_I lambda_env
                            = Ok (ci, if num_gt (NFloat ci) 0 then log10 ci
                                      else F64.neg_inf)))).
  { intros R f_I d_I lambda_env r f d l Er Ef Ed El Hr Hf Hd Hl Hz.
    rewrite (calculate_ci_body log10 _ _ _ _ _ _ _ _ Er Ef Ed El Hr Hf Hd Hl).
    pose proof (num_mul_overflow l d) as Md.
    pose proof (num_mul_overflow r f) as Mn.
    split.
    - intros [O|O]; rewrite O in *.
      + now rewrite Md.
      + destruct (mul_overflows l d).
        * now rewrite Md.
        * destruct Md as (den & Eden). rewrite Eden. cbn [bind].
          rewrite (Hz den Eden). now rewrite Mn.
    - intros Od On. rewrite Od in Md. rewrite On in Mn.
      destruct Md as (den & Eden). destruct Mn as (nu & Enu).
      exists den, nu. split; [exact Eden|]. split; [exact Enu|].
      rewrite Eden, Enu. cbn [bind]. rewrite (Hz den Eden).
      split.
      + intro O. apply num_truediv_overflow in O. now rewrite O.
      + intro O.
        destruct (num_truediv nu den) as [ci|e] eqn:D.
        * exists ci. split; reflexivity.
        * exfalso.
          pose proof (num_truediv_nonzero_divisor nu den (Hz den Eden)) as Z.
          destruct (num_truediv_raise _ _ _ D) as [-> | ->].
          -- apply num_truediv_overflow in D. congruence.
          -- now apply Z. }
  split; [exact G|split].
  - intros R f_I d_I lambda_env r f d l Er Ef Ed El Hr Hf Hd Hl Hz Fn Fd.
    destruct (product_fits_mul _ _ Fn) as [On Cn].
    destruct (product_fits_mul _ _ Fd) as [Od Cd].
    destruct (G R f_I d_I lambda_env r f d l Er Ef Ed El Hr Hf Hd Hl Hz)
      as [_ H].
    destruct (H Od On) as (den & nu & Eden & Enu & _ & K).
    destruct (K (truediv_fits nu den (Cn nu Enu) (Cd den Eden)))
      as (ci & Eci & E).
    exists den, nu, ci. auto.
  - intros R f_I d_I lambda_env HR Hf Hd Hl Hz.
    rewrite (calculate_ci_body log10 _ _ _ _ (NFloat R) (NFloat f_I)
               (NFloat d_I) (NFloat lambda_env)) by (reflexivity || assumption).
    simpl num_mul. cbn [bind]. rewrite Hz. cbn [bind].
    rewrite float_eq_0 in Hz. simpl. now rewrite Hz.
Qed.

Lemma calculate_ci_formula_witness :
  calculate_ci log10_sample (PyInt 2) (PyFloat (F64.of_ratio 1 2))
               (PyInt 1) (PyFloat f1)
  = Ok (f1, f0)
  /\ exists (den nu : num) (ci : F64.float),
       num_mul (NFloat f1) (NInt 1) = Ok den
       /\ num_mul (NInt 2) (NFloat (F64.of_ratio 1 2)) = Ok nu
       /\ num_truediv nu den = Ok ci
       /\ calculate_ci log10_sample (PyInt 2) (PyFloat (F64.of_ratio 1 2))
                       (PyInt 1) (PyFloat f1)
          = Ok (ci, if num_gt (NFloat ci) 0 then log10_sample ci
                    else F64.neg_inf).
Proof.
  split; [vm_compute; reflexivity|].
  apply (proj1 (proj2 (calculate_ci_formula log10_sample))
               (PyInt 2) (PyFloat (F64.of_ratio 1 2)) (PyInt 1) (PyFloat f1)
               (NInt 2) (NFloat (F64.of_ratio 1 2)) (NInt 1) (NFloat f1));
    try (vm_compute; reflexivity).
  intros den H. vm_compute in H. injection H as <-. vm_compute. reflexivity.
Defined.

(** ** The zero denominator *)

(** C2 as the specification states it fails on an infinite factor:
    [calculate_ci(1.0, 1.0, 0.0, inf)] has [d_I = 0], but the product
    [inf * 0.0] is NaN, which is not equal to 0: no error is raised and the
    pair (NaN, negative infinity) is returned. *)
Lemma calculate_ci_zero_times_inf_returns :
  is_zero_obj (PyFloat f0) = true
  /\ offending (PyFloat F64.pos_inf) = false
  /\ (forall log10 : F64.float -> F64.float,
        calculate_ci log10 (PyFloat f1) (PyFloat f1)
                     (PyFloat f0) (PyFloat F64.pos_inf)
        = Ok (F64.nan, F64.neg_inf)).
Proof. repeat split. Qed.

(** The converse direction fails too, on finite arguments: the product of
    two nonzero floats can underflow to zero. *)
Lemma denominator_underflow (log10 : F64.float -> F64.float) :
  is_zero_obj (PyFloat f1em200) = false
  /\ calculate_ci log10 (PyFloat f1) (PyFloat f1)
                  (PyFloat f1em200) (PyFloat f1em200)
     = Raise (ValueError denominator_msg).
Proof. split; vm_compute; reflexivity. Qed.

Lemma invalid_input_msg_not_denominator_msg
      (R f_I d_I lambda_env : pyobj) (name : string) (x : pyobj) :
  In (name, x) [("R", R); ("f_I", f_I); ("d_I", d_I);
                ("lambda_env", lambda_env)] ->
  invalid_input_msg name x <> denominator_msg.
Proof.
  unfold invalid_input_msg.
  intros [H|[H|[H|[H|[]]]]]; injection H as <- <-;
    destruct (isinstance_int_float _); discriminate.
Qed.

Lemma in_float_range_finite (o : pyobj) :
  in_float_range o = true ->
  exists v x, as_num o = Some v /\ to_float v = Ok x /\
              F64.is_finite x = true.
Proof.
  unfold in_float_range. destruct (as_num o) as [v|]; [|discriminate].
  destruct (to_float v) as [x|e] eqn:T; [|discriminate].
  intro H. now exists v, x.
Qed.

Lemma to_float_finite (v : num) (x : F64.float) :
  to_float v = Ok x -> F64.is_finite x = num_finite v.
Proof.
  destruct v as [n|y]; intro H.
  - now apply to_float_int_finite in H.
  - simpl in H. now injection H as <-.
Qed.

Lemma to_float_zero (v : num) (x : F64.float) :
  num_eq v 0 = true -> to_float v = Ok x -> F64.is_zero x = true.
Proof.
  destruct v as [n|y]; simpl.
  - rewrite int_eq_0. intro H. apply Z.eqb_eq in H. subst n. simpl.
    intro H. now injection H as <-.
  - rewrite float_eq_0. intros Hy H. now injection H as <-.
Qed.

Lemma to_float_not_nan (v : num) (x : F64.float) :
  num_is_nan v = false -> to_float v = Ok x -> F64.is_nan x = false.
Proof.
  destruct v as [n|y]; simpl.
  - intros _. destruct (F64.is_inf (F64.of_Z n)); [discriminate|].
    intro H. injection H as <-. apply of_Z_not_nan.
  - intros Hy H. now injection H as <-.
Qed.

Lemma num_mul_ok (a b : num) (x y : F64.float) :
  to_float a = Ok x -> to_float b = Ok y -> exists c, num_mul a b = Ok c.
Proof.
  intros Ha Hb. destruct a as [m|x'], b as [n|y'];
    [now exists (NInt (m * n))| | |];
    exists (NFloat (F64.mul x y)); unfold num_mul;
    rewrite ?Ha, ?Hb; simpl in *; congruence.
Qed.

(** A zero factor and a finite one give a zero product. *)
Lemma num_mul_zero (a b c : num) :
  num_finite a = true -> num_finite b = true ->
  num_eq a 0 = true \/ num_eq b 0 = true ->
  num_mul a b = Ok c -> num_eq c 0 = true.
Proof.
  intros Fa Fb Hz H. destruct (num_mul_inv a b c H)
    as [(m & n & -> & -> & ->)|(x & y & Hx & Hy & ->)].
  - rewrite !int_eq_0 in *. apply Z.eqb_eq.
    destruct Hz as [E|E]; apply Z.eqb_eq in E; subst; lia.
  - rewrite float_eq_0. apply mul_zero_finite.
    + now rewrite (to_float_finite a).
    + now rewrite (to_float_finite b).
    + destruct Hz as [E|E]; [left|right]; eauto using to_float_zero.
Qed.

(** C2 (amended). [calculate_ci] fails with the zero-denominator [ValueError]
    exactly when its arguments pass validation and the product
    [lambda_env * d_I], as computed, is equal to 0.  For arguments that pass
    validation this is so whenever [d_I = 0] or [lambda_env = 0] and both are
    finite and within the range of doubles (it is also so when the product
    of two nonzero floats underflows to 0).  The check comes before the
    division: the exception is the [ValueError] of the check, never that of
    a division, and no pair is returned. *)
Theorem calculate_ci_zero_denominator
        (log10 : F64.float -> F64.float) (R f_I d_I lambda_env : pyobj) :
  (calculate_ci log10 R f_I d_I lambda_env = Raise (ValueError denominator_msg)
   <-> (offending R = false /\ offending f_I = false /\
        offending d_I = false /\ offending lambda_env = false)
       /\ exists den, py_mul lambda_env d_I = Ok den /\ num_eq den 0 = true)
  /\ (offending R = false -> offending f_I = false ->
      offending d_I = false -> offending lambda_env = false ->
      in_float_range d_I = true -> in_float_range lambda_env = true ->
      is_zero_obj d_I = true \/ is_zero_obj lambda_env = true ->
      calculate_ci log10 R f_I d_I lambda_env
      = Raise (ValueError denominator_msg))
  /\ calculate_ci log10 (PyFloat f1) (PyFloat f1)
                  (PyFloat f1em200) (PyFloat f1em200)
     = Raise (ValueError denominator_msg)
  /\ calculate_ci log10 (PyInt 1) (PyInt 1) (PyInt 0) (PyInt 5)
     = Raise (ValueError denominator_msg).
Proof.
  assert (E : (offending R = false /\ offending f_I = false /\
               offending d_I = false /\ offending lambda_env = false)
              /\ (exists den, py_mul lambda_env d_I = Ok den /\
                              num_eq den 0 = true) ->
              calculate_ci log10 R f_I d_I lambda_env
              = Raise (ValueError denominator_msg)).
  { intros [V (den & Hden & Hz)]. apply validate_four in V.
    unfold calculate_ci. rewrite V, Hden. simpl. now rewrite Hz. }
  split; [split; [|exact E]|split; [|split; [|reflexivity]]].
  - rewrite <- validate_four. unfold calculate_ci.
    destruct (validate _) as [[]|e] eqn:V; simpl.
    2:{ intro H. injection H as ->.
        apply validate_raise_inv in V.
        destruct V as (name & x & Hin & _ & Hmsg). injection Hmsg as Hmsg.
        symmetry in Hmsg.
        now apply invalid_input_msg_not_denominator_msg in Hin. }
    destruct (py_mul lambda_env d_I) as [den|e] eqn:M; simpl.
    2:{ intro H. injection H as ->.
        apply py_mul_raise in M. destruct M; discriminate. }
    destruct (num_eq den 0) eqn:Hz; [intros _; split; eauto|].
    destruct (py_mul R f_I) as [nu|e] eqn:M2; simpl.
    2:{ intro H. injection H as ->.
        apply py_mul_raise in M2. destruct M2; discriminate. }
    destruct (num_truediv nu den) as [q|e] eqn:D; simpl; [discriminate|].
    intro H. injection H as ->.
    apply num_truediv_raise in D. destruct D; discriminate.
  - intros HR Hf Hd Hl Fd Fl Hz. apply E. split; [auto|].
    destruct (in_float_range_finite _ Fd) as (d & xd & Ed & Td & Fxd).
    destruct (in_float_range_finite _ Fl) as (l & xl & El & Tl & Fxl).
    rewrite (py_mul_num _ _ _ _ El Ed).
    destruct (num_mul_ok l d xl xd Tl Td) as (den & Hden).
    exists den. split; [exact Hden|].
    apply (num_mul_zero l d den); auto.
    + now rewrite <- (to_float_finite l xl).
    + now rewrite <- (to_float_finite d xd).
    + unfold is_zero_obj in Hz. rewrite Ed, El in Hz. tauto.
  - exact (proj2 (denominator_underflow log10)).
Qed.

Lemma calculate_ci_zero_denominator_witness :
  calculate_ci log10_sample (PyInt 1) (PyFloat f1) (PyFloat f0) (PyInt 5)
  = Raise (ValueError denominator_msg).
Proof.
  apply (proj1 (proj2 (calculate_ci_zero_denominator
                         log10_sample (PyInt 1) (PyFloat f1) (PyFloat f0)
                         (PyInt 5))));
    try reflexivity.
  left. reflexivity.
Defined.

(** ** The returned pair *)

Lemma num_mul_not_neg (a b c : num) :
  num_lt a 0 = false -> num_lt b 0 = false ->
  num_mul a b = Ok c -> num_lt c 0 = false.
Proof.
  intros Ha Hb H. destruct (num_mul_inv a b c H)
    as [(m & n & -> & -> & ->)|(x & y & Hx & Hy & ->)].
  - rewrite int_lt_0 in *. apply Z.ltb_ge in Ha, Hb. apply Z.ltb_ge. nia.
  - rewrite float_lt_0. apply mul_not_neg; eauto using to_float_not_neg.
Qed.

Lemma int_truediv_not_neg (a b : Z) (q : F64.float) :
  0 <= a -> 0 <= b -> int_truediv a b = Ok q -> is_neg q = false.
Proof.
  intros Ha Hb. unfold int_truediv.
  destruct (b =? 0); [discriminate|].
  destruct (a =? 0); [intro H; now injection H as <-|].
  apply Z.ltb_ge in Ha, Hb. rewrite Ha, Hb.
  destruct (F64.is_inf _); [discriminate|].
  intro H. injection H as <-.
  apply (div_not_neg (S754_finite false (Z.to_pos (Z.abs a)) 0)
                     (S754_finite false (Z.to_pos (Z.abs b)) 0));
    reflexivity.
Qed.

Lemma num_truediv_not_neg (a b : num) (q : F64.float) :
  num_lt a 0 = false -> num_lt b 0 = false ->
  num_truediv a b = Ok q -> is_neg q = false.
Proof.
  intros Ha Hb H. destruct (num_truediv_inv a b q H)
    as [(m & n & -> & -> & Hq)|(x & y & Hx & Hy & Hz & ->)].
  - rewrite int_lt_0 in *. apply Z.ltb_ge in Ha, Hb.
    now apply (int_truediv_not_neg m n).
  - apply div_not_neg; eauto using to_float_not_neg.
Qed.

Lemma num_truediv_zero (a b : num) (q : F64.float) :
  num_eq a 0 = true -> num_is_nan b = false ->
  num_truediv a b = Ok q -> F64.is_zero q = true.
Proof.
  intros Ha Hb H. destruct (num_truediv_inv a b q H)
    as [(m & n & -> & -> & Hq)|(x & y & Hx & Hy & Hz & ->)].
  - rewrite int_eq_0 in Ha. unfold int_truediv in Hq. rewrite Ha in Hq.
    destruct (n =? 0); [discriminate|]. now injection Hq as <-.
  - apply div_zero; eauto using to_float_zero, to_float_not_nan.
Qed.

Lemma num_mul_finite_not_nan (a b c : num) :
  num_finite a = true -> num_finite b = true ->
  num_mul a b = Ok c -> num_is_nan c = false.
Proof.
  intros Fa Fb H. destruct (num_mul_inv a b c H)
    as [(m & n & -> & -> & ->)|(x & y & Hx & Hy & ->)]; [reflexivity|].
  simpl. apply mul_finite_not_nan.
  - now rewrite (to_float_finite a).
  - now rewrite (to_float_finite b).
Qed.

(** C5 as the specification states it fails on an infinite factor:
    [calculate_ci(0.0, inf, 1.0, 1.0)] is a successful call with [R = 0] and
    the nonzero denominator [1.0 * 1.0 = 1.0], but [0.0 * inf] is NaN, so the
    returned CI is NaN and not 0. *)
Lemma calculate_ci_zero_times_inf_numerator :
  is_zero_obj (PyFloat f0) = true
  /\ py_mul (PyFloat f1) (PyFloat f1) = Ok (NFloat f1)
  /\ num_eq (NFloat f1) 0 = false
  /\ (forall log10 : F64.float -> F64.float,
        calculate_ci log10 (PyFloat f0) (PyFloat F64.pos_inf)
                     (PyFloat f1) (PyFloat f1)
        = Ok (F64.nan, F64.neg_inf))
  /\ num_eq (NFloat F64.nan) 0 = false.
Proof. repeat split. Qed.

(** C5 (amended). For every successful call of [calculate_ci] the returned
    pair is consistent: [log_CI = log10(CI)] whenever [CI > 0],
    [log_CI] is negative infinity when [CI = 0], and [CI] is never negative.
    When [R = 0] or [f_I = 0], both are finite, and the denominator is not
    NaN (as it is whenever [d_I] and [lambda_env] are finite), [CI = 0] and
    [log_CI] is negative infinity; and [classify_regime] of negative
    infinity is "collapse_gravity". *)
Theorem calculate_ci_pair_consistent
        (log10 : F64.float -> F64.float) (R f_I d_I lambda_env : pyobj)
        (ci log_ci : F64.float) :
  calculate_ci log10 R f_I d_I lambda_env = Ok (ci, log_ci) ->
  (num_gt (NFloat ci) 0 = true -> log_ci = log10 ci)
  /\ (num_eq (NFloat ci) 0 = true -> log_ci = F64.neg_inf)
  /\ num_lt (NFloat ci) 0 = false
  /\ (forall den : num,
        is_zero_obj R = true \/ is_zero_obj f_I = true ->
        obj_finite R = true -> obj_finite f_I = true ->
        py_mul lambda_env d_I = Ok den -> num_is_nan den = false ->
        num_eq (NFloat ci) 0 = true /\ log_ci = F64.neg_inf)
  /\ (forall den : num,
        obj_finite d_I = true -> obj_finite lambda_env = true ->
        py_mul lambda_env d_I = Ok den -> num_is_nan den = false)
  /\ classify_regime (NFloat F64.neg_inf) = "collapse_gravity".
Proof.
  intro H. apply calculate_ci_ok_iff in H.
  destruct H as [(HR & Hf & Hd & Hl) (den & nu & Hden & Hz & Hnu & Hci & Hlog)].
  destruct (offending_false _ HR) as (r & Er & Lr).
  destruct (offending_false _ Hf) as (f & Ef & Lf).
  destruct (offending_false _ Hd) as (d & Ed & Ld).
  destruct (offending_false _ Hl) as (l & El & Ll).
  rewrite (py_mul_num _ _ _ _ El Ed) in *.
  rewrite (py_mul_num _ _ _ _ Er Ef) in Hnu.
  assert (Zlog : num_eq (NFloat ci) 0 = true -> log_ci = F64.neg_inf).
  { rewrite float_eq_0. rewrite float_gt_0 in Hlog.
    destruct ci; try discriminate. intros _. exact Hlog. }
  split; [|split; [|split; [|split; [|split]]]].
  - intro G. now rewrite G in Hlog.
  - exact Zlog.
  - rewrite float_lt_0.
    apply (num_truediv_not_neg nu den); auto.
    + now apply (num_mul_not_neg r f).
    + now apply (num_mul_not_neg l d).
  - intros den' Hzero FR Ff Hden' Hnan.
    rewrite Hden in Hden'. injection Hden' as <-.
    unfold is_zero_obj, obj_finite in *. rewrite Er, Ef in *.
    assert (Hq : F64.is_zero ci = true).
    { apply (num_truediv_zero nu den); auto.
      now apply (num_mul_zero r f). }
    rewrite <- float_eq_0 in Hq. auto.
  - intros den' Fd Fl Hden'.
    unfold obj_finite in *. rewrite Ed, El in *.
    now apply (num_mul_finite_not_nan l d).
  - reflexivity.
Qed.

Lemma calculate_ci_pair_consistent_witness :
  calculate_ci log10_sample (PyInt 0) (PyFloat f5) (PyFloat f2) (PyInt 3)
  = Ok (f0, F64.neg_inf)
  /\ num_eq (NFloat f0) 0 = true /\ F64.neg_inf = F64.neg_inf.
Proof.
  split; [reflexivity|].
  refine (proj1 (proj2 (proj2 (proj2
            (calculate_ci_pair_consistent
               log10_sample (PyInt 0) (PyFloat f5) (PyFloat f2) (PyInt 3)
               f0 F64.neg_inf _)))) (NFloat (F64.of_Z 6)) _ _ _ _ _);
    try reflexivity.
  left. reflexivity.
Defined.

(** ** NaN as a returned CI *)

Lemma SFdiv_core_binary_nonneg (m1 : positive) (e1 : Z) (m2 : positive) (e2 : Z) :
  0 <= fst (fst (SFdiv_core_binary F64.prec F64.emax
                                   (Z.pos m1) e1 (Z.pos m2) e2)).
Proof.
  unfold SFdiv_core_binary.
  set (s := e1 - e2 - _).
  set (m' := match s with
             | 0 => Z.pos m1
             | Z.pos _ => Z.shiftl (Z.pos m1) s
             | Z.neg _ => 0
             end).
  assert (Hm : 0 <= m').
  { unfold m'. destruct s; try lia. apply Z.shiftl_nonneg. lia. }
  destruct (Z.div_eucl m' (Z.pos m2)) as [q r] eqn:E. simpl.
  assert (Hq : q = m' / Z.pos m2) by (unfold Z.div; now rewrite E).
  subst q. apply Z.div_pos; lia.
Qed.

Lemma div_finite_not_nan (x y : F64.float) :
  F64.is_finite x = true -> F64.is_finite y = true ->
  F64.is_zero y = false -> F64.is_nan (F64.div x y) = false.
Proof.
  destruct x as [sx|sx| |sx mx ex], y as [sy|sy| |sy my ey]; simpl;
    intros Hx Hy Hz; try discriminate; try reflexivity.
  unfold F64.div, SFdiv.
  pose proof (SFdiv_core_binary_nonneg mx ex my ey) as H.
  destruct (SFdiv_core_binary F64.prec F64.emax (Z.pos mx) ex (Z.pos my) ey)
    as [[mz ez] lz].
  now apply binary_round_aux_not_nan.
Qed.

(** With a nonzero divisor and no NaN operand, a quotient is NaN exactly
    when both operands are infinite. *)
Lemma div_nan_iff (x y : F64.float) :
  F64.is_nan x = false -> F64.is_nan y = false -> F64.is_zero y = false ->
  F64.is_nan (F64.div x y) = true
  <-> F64.is_inf x = true /\ F64.is_inf y = true.
Proof.
  intros Hx Hy Hz.
  destruct (F64.is_finite x) eqn:Fx, (F64.is_finite y) eqn:Fy.
  - rewrite div_finite_not_nan by assumption.
    destruct x, y; simpl in *; intuition discriminate.
  - destruct x, y; simpl in *; intuition discriminate.
  - destruct x, y; simpl in *; intuition discriminate.
  - destruct x, y; simpl in *; intuition discriminate.
Qed.

Lemma to_float_inf (v : num) (x : F64.float) :
  num_lt v 0 = false -> to_float v = Ok x ->
  F64.is_inf x = true <-> v = NFloat F64.pos_inf.
Proof.
  destruct v as [n|y]; intros Hv H.
  - pose proof (to_float_int_finite n x H) as F.
    split; [|discriminate]. destruct x; simpl in *; discriminate.
  - simpl in H. injection H as <-. rewrite float_lt_0 in Hv.
    split.
    + destruct y as [s|s| |s m e]; simpl in *; try discriminate.
      now subst s.
    + intro E. now injection E as ->.
Qed.

Lemma int_truediv_not_nan (a b : Z) (q : F64.float) :
  int_truediv a b = Ok q -> F64.is_nan q = false.
Proof.
  unfold int_truediv.
  destruct (b =? 0); [discriminate|].
  destruct (a =? 0); [intro H; now injection H as <-|].
  destruct (F64.is_inf _); [discriminate|].
  intro H. injection H as <-.
  apply (div_finite_not_nan (S754_finite _ _ 0) (S754_finite _ _ 0));
    reflexivity.
Qed.

(** For finite arguments the returned CI is NaN exactly when numerator and
    denominator both overflowed to infinity. *)
Lemma calculate_ci_nan_iff (log10 : F64.float -> F64.float)
      (R f_I d_I lambda_env : pyobj) (ci log_ci : F64.float) :
  calculate_ci log10 R f_I d_I lambda_env = Ok (ci, log_ci) ->
  obj_finite R = true -> obj_finite f_I = true ->
  obj_finite d_I = true -> obj_finite lambda_env = true ->
  F64.is_nan ci = true
  <-> py_mul R f_I = Ok (NFloat F64.pos_inf)
      /\ py_mul lambda_env d_I = Ok (NFloat F64.pos_inf).
Proof.
  intros H FR Ff Fd Fl. apply calculate_ci_ok_iff in H.
  destruct H as [(HR & Hf & Hd & Hl) (den & nu & Hden & Hz & Hnu & Hci & _)].
  destruct (offending_false _ HR) as (r & Er & Lr).
  destruct (offending_false _ Hf) as (f & Ef & Lf).
  destruct (offending_false _ Hd) as (d & Ed & Ld).
  destruct (offending_false _ Hl) as (l & El & Ll).
  unfold obj_finite in *. rewrite Er in FR. rewrite Ef in Ff.
  rewrite Ed in Fd. rewrite El in Fl.
  rewrite Hden, Hnu.
  rewrite (py_mul_num _ _ _ _ El Ed) in Hden.
  rewrite (py_mul_num _ _ _ _ Er Ef) in Hnu.
  pose proof (num_mul_finite_not_nan _ _ _ FR Ff Hnu) as Nnu.
  pose proof (num_mul_finite_not_nan _ _ _ Fl Fd Hden) as Nden.
  pose proof (num_mul_not_neg _ _ _ Lr Lf Hnu) as Lnu.
  pose proof (num_mul_not_neg _ _ _ Ll Ld Hden) as Lden.
  destruct (num_truediv_inv nu den ci Hci)
    as [(m & n & -> & -> & Hq)|(x & y & Hx & Hy & Hy0 & ->)].
  - rewrite (int_truediv_not_nan m n ci Hq).
    split; [discriminate|]. intros [E _]. discriminate.
  - rewrite div_nan_iff by eauto using to_float_not_nan.
    rewrite (to_float_inf nu x Lnu Hx), (to_float_inf den y Lden Hy).
    split; intros [E1 E2]; subst; auto.
    injection E1 as ->. injection E2 as ->. auto.
Qed.

(** C8 as the specification states it fails on finite arguments:
    [calculate_ci(1e200, 1e200, 1e200, 1e200)] is a successful call (both
    products overflow to infinity, and infinity is not equal to 0) whose CI
    is [inf / inf], NaN, and on NaN [interpret_ci_minimal] takes the
    fallback branch. *)
Lemma interpret_ci_minimal_fallback_reached :
  (forall log10 : F64.float -> F64.float,
     calculate_ci log10 (PyFloat f1e200) (PyFloat f1e200)
                  (PyFloat f1e200) (PyFloat f1e200)
     = Ok (F64.nan, F64.neg_inf))
  /\ interpret_ci_minimal (NFloat F64.nan) = "Invalid CI value.".
Proof. split; [intro log10|]; vm_compute; reflexivity. Qed.

(** C8 (amended). For every CI value produced by a successful call of
    [calculate_ci] that is not NaN, [interpret_ci_minimal] takes one of the
    three comparison branches, as it does for every argument that is not
    NaN.  The fallback branch returning "Invalid CI value." is taken exactly
    on NaN, and a successful call can return NaN: with finite arguments the
    fallback is reached exactly when both [R * f_I] and [lambda_env * d_I]
    overflow to infinity. *)
Theorem interpret_ci_minimal_on_result :
  (forall ci : num,
     interpret_ci_minimal ci = msg_invalid <-> num_is_nan ci = true)
  /\ (forall ci : num,
        num_is_nan ci = false ->
        (num_gt ci 1 = true /\ interpret_ci_minimal ci = msg_effective)
        \/ (num_eq ci 1 = true /\ interpret_ci_minimal ci = msg_equilibrium)
        \/ (num_lt ci 1 = true /\ interpret_ci_minimal ci = msg_collapse))
  /\ (forall (log10 : F64.float -> F64.float) (R f_I d_I lambda_env : pyobj)
             (ci log_ci : F64.float),
        calculate_ci log10 R f_I d_I lambda_env = Ok (ci, log_ci) ->
        obj_finite R = true -> obj_finite f_I = true ->
        obj_finite d_I = true -> obj_finite lambda_env = true ->
        interpret_ci_minimal (NFloat ci) = msg_invalid
        <-> py_mul R f_I = Ok (NFloat F64.pos_inf)
            /\ py_mul lambda_env d_I = Ok (NFloat F64.pos_inf)).
Proof.
  split; [exact interpret_ci_minimal_invalid_iff|split].
  - intros ci Hnan.
    destruct (num_cmp_not_nan ci 1 Hnan) as (c & Hc).
    unfold interpret_ci_minimal, num_gt, num_eq, num_lt. rewrite Hc.
    destruct c; auto.
  - intros log10 R f_I d_I lambda_env ci log_ci H FR Ff Fd Fl.
    rewrite interpret_ci_minimal_invalid_iff.
    exact (calculate_ci_nan_iff log10 R f_I d_I lambda_env ci log_ci
                                H FR Ff Fd Fl).
Qed.

Lemma interpret_ci_minimal_on_result_witness :
  interpret_ci_minimal (NFloat F64.nan) = msg_invalid
  <-> py_mul (PyFloat f1e200) (PyFloat f1e200) = Ok (NFloat F64.pos_inf)
      /\ py_mul (PyFloat f1e200) (PyFloat f1e200) = Ok (NFloat F64.pos_inf).
Proof.
  apply (proj2 (proj2 interpret_ci_minimal_on_result)
               log10_sample (PyFloat f1e200) (PyFloat f1e200)
               (PyFloat f1e200) (PyFloat f1e200) F64.nan F64.neg_inf);
    vm_compute; reflexivity.
Defined.

(** * Further properties *)

(** ** The exceptions of [calculate_ci] *)

Lemma calculate_ci_raise_inv (log10 : F64.float -> F64.float)
      (R f_I d_I lambda_env : pyobj) (e : exn) :
  calculate_ci log10 R f_I d_I lambda_env = Raise e ->
  e = OverflowError
  \/ ((offending R = false /\ offending f_I = false /\
       offending d_I = false /\ offending lambda_env = false)
      /\ e = ValueError denominator_msg)
  \/ exists name x,
       In (name, x) [("R", R); ("f_I", f_I); ("d_I", d_I);
                     ("lambda_env", lambda_env)]
       /\ offending x = true /\ e = ValueError (invalid_input_msg name x).
Proof.
  pose proof (no_ZeroDivisionError log10 R f_I d_I lambda_env) as Z.
  pose proof (no_TypeError log10 R f_I d_I lambda_env) as T.
  unfold calculate_ci in *.
  destruct (validate _) as [[]|e0] eqn:V; cbn [bind] in *.
  2:{ intro H. injection H as <-. right; right.
      now apply validate_raise_inv. }
  apply validate_four in V.
  destruct (py_mul lambda_env d_I) as [den|e0] eqn:M1; cbn [bind] in *.
  2:{ intro H. injection H as <-. left.
      apply py_mul_raise in M1. destruct M1 as [-> | ->]; tauto. }
  destruct (num_eq den 0).
  { intro H. injection H as <-. right; left. auto. }
  destruct (py_mul R f_I) as [nu|e0] eqn:M2; cbn [bind] in *.
  2:{ intro H. injection H as <-. left.
      apply py_mul_raise in M2. destruct M2 as [-> | ->]; tauto. }
  destruct (num_truediv nu den) as [q|e0] eqn:D; cbn [bind] in *; [discriminate|].
  intro H. injection H as <-. left.
  apply num_truediv_raise in D. destruct D as [-> | ->]; tauto.
Qed.

(** X1. [calculate_ci] raises nothing but [ValueError] and [OverflowError]:
    never [TypeError], and never [ZeroDivisionError], the explicit check
    standing in for the division's own.  A [ValueError] carries one of nine
    messages, and when the four arguments pass validation the only
    exceptions left are the zero-denominator [ValueError] and
    [OverflowError]. *)
Theorem calculate_ci_exceptions (log10 : F64.float -> F64.float)
        (R f_I d_I lambda_env : pyobj) :
  calculate_ci log10 R f_I d_I lambda_env <> Raise TypeError
  /\ calculate_ci log10 R f_I d_I lambda_env <> Raise ZeroDivisionError
  /\ (forall msg,
        calculate_ci log10 R f_I d_I lambda_env = Raise (ValueError msg) ->
        In msg error_messages)
  /\ (offending R = false -> offending f_I = false ->
      offending d_I = false -> offending lambda_env = false ->
      forall e, calculate_ci log10 R f_I d_I lambda_env = Raise e ->
                e = ValueError denominator_msg \/ e = OverflowError).
Proof.
  split; [apply no_TypeError|split; [apply no_ZeroDivisionError|split]].
  - intros msg H. apply calculate_ci_raise_inv in H.
    destruct H as [H|[[_ H]|(name & x & Hin & _ & H)]]; [discriminate| |].
    + injection H as ->. unfold error_messages. simpl. auto 10.
    + injection H as ->. unfold invalid_input_msg.
      destruct Hin as [E|[E|[E|[E|[]]]]]; injection E as <- <-;
        destruct (isinstance_int_float _); simpl; auto 10.
  - intros HR Hf Hd Hl e H. apply calculate_ci_raise_inv in H.
    destruct H as [H|[[_ H]|(name & x & Hin & Hx & H)]]; auto.
    destruct Hin as [E|[E|[E|[E|[]]]]]; injection E as <- <-; congruence.
Qed.

Lemma calculate_ci_exceptions_witness :
  In "f_I must be non-negative." error_messages.
Proof.
  apply (proj1 (proj2 (proj2 (calculate_ci_exceptions
           log10_sample (PyInt 1) (PyFloat (SFopp f2)) (PyInt 1) (PyInt 1))))).
  reflexivity.
Defined.

(** ** Where [OverflowError] comes from *)

Lemma no_big_int_as_num (o : pyobj) (v : num) :
  is_plain_int o = false -> as_num o = Some v -> no_big_int v.
Proof.
  destruct o as [n|b|x|s|]; try discriminate; intros _ H;
    injection H as <-; simpl; auto.
  destruct b; auto.
Qed.

Lemma to_float_no_big_int (v : num) :
  no_big_int v -> exists x, to_float v = Ok x.
Proof.
  destruct v as [n|x]; simpl; [|eauto].
  intros [-> | ->]; vm_compute; eauto.
Qed.

Lemma num_mul_no_big_int (a b : num) :
  no_big_int a -> no_big_int b ->
  exists c, num_mul a b = Ok c /\ no_big_int c.
Proof.
  intros Ha Hb. destruct a as [m|x], b as [n|y].
  - exists (NInt (m * n)). split; [reflexivity|].
    simpl in *. destruct Ha as [-> | ->], Hb as [-> | ->]; auto.
  - destruct (to_float_no_big_int _ Ha) as (x & Hx).
    exists (NFloat (F64.mul x y)). unfold num_mul. now rewrite Hx.
  - destruct (to_float_no_big_int _ Hb) as (y & Hy).
    exists (NFloat (F64.mul x y)). unfold num_mul. simpl to_float at 1.
    cbn [bind]. now rewrite Hy.
  - exists (NFloat (F64.mul x y)). now split.
Qed.

Lemma num_truediv_no_big_int (a b : num) :
  no_big_int a -> no_big_int b -> num_truediv a b <> Raise OverflowError.
Proof.
  intros Ha Hb. destruct a as [m|x], b as [n|y].
  - simpl in *. destruct Ha as [-> | ->], Hb as [-> | ->];
      vm_compute; discriminate.
  - destruct (to_float_no_big_int _ Ha) as (x & Hx).
    unfold num_truediv. rewrite Hx. simpl.
    destruct (F64.is_zero y); discriminate.
  - destruct (to_float_no_big_int _ Hb) as (y & Hy).
    unfold num_truediv. simpl to_float at 1. cbn [bind]. rewrite Hy. simpl.
    destruct (F64.is_zero y); discriminate.
  - simpl. destruct (F64.is_zero y); discriminate.
Qed.

(** X2. [OverflowError] is raised only when one of the four arguments is
    an [int] that is not a [bool]: floats overflow silently to infinity,
    and a [bool] is 0 or 1. *)
Theorem calculate_ci_overflow_needs_int (log10 : F64.float -> F64.float)
        (R f_I d_I lambda_env : pyobj) :
  calculate_ci log10 R f_I d_I lambda_env = Raise OverflowError ->
  is_plain_int R = true \/ is_plain_int f_I = true \/
  is_plain_int d_I = true \/ is_plain_int lambda_env = true.
Proof.
  intro H.
  destruct (is_plain_int R) eqn:PR; auto.
  destruct (is_plain_int f_I) eqn:Pf; auto.
  destruct (is_plain_int d_I) eqn:Pd; auto.
  destruct (is_plain_int lambda_env) eqn:Pl; auto.
  exfalso. revert H. unfold calculate_ci.
  destruct (validate _) as [[]|e] eqn:V; cbn [bind].
  2:{ apply validate_raise_inv in V. destruct V as (n & x & _ & _ & ->).
      discriminate. }
  apply validate_four in V. destruct V as (HR & Hf & Hd & Hl).
  destruct (offending_false _ HR) as (r & Er & _).
  destruct (offending_false _ Hf) as (f & Ef & _).
  destruct (offending_false _ Hd) as (d & Ed & _).
  destruct (offending_false _ Hl) as (l & El & _).
  rewrite (py_mul_num _ _ _ _ El Ed), (py_mul_num _ _ _ _ Er Ef).
  pose proof (no_big_int_as_num _ _ PR Er) as Sr.
  pose proof (no_big_int_as_num _ _ Pf Ef) as Sf.
  pose proof (no_big_int_as_num _ _ Pd Ed) as Sd.
  pose proof (no_big_int_as_num _ _ Pl El) as Sl.
  destruct (num_mul_no_big_int l d Sl Sd) as (den & -> & Sden).
  destruct (num_mul_no_big_int r f Sr Sf) as (nu & -> & Snu).
  cbn [bind].
  destruct (num_eq den 0); [discriminate|].
  pose proof (num_truediv_no_big_int nu den Snu Sden) as D.
  destruct (num_truediv nu den) as [q|e]; cbn [bind]; [discriminate|].
  intro H. injection H as ->. now apply D.
Qed.

Lemma calculate_ci_overflow_needs_int_witness :
  calculate_ci log10_sample (PyInt (10 ^ 400)) (PyFloat f1) (PyFloat f1)
               (PyFloat f1)
  = Raise OverflowError
  /\ (is_plain_int (PyInt (10 ^ 400)) = true \/ is_plain_int (PyFloat f1) = true \/
  is_plain_int (PyFloat f1) = true \/ is_plain_int (PyFloat f1) = true).
Proof.
  split; [vm_compute; reflexivity|].
  apply (calculate_ci_overflow_needs_int log10_sample
           (PyInt (10 ^ 400)) (PyFloat f1) (PyFloat f1) (PyFloat f1)).
  vm_compute. reflexivity.
Defined.

(** ** Symmetry *)

Lemma mul_comm (x y : F64.float) : F64.mul x y = F64.mul y x.
Proof.
  destruct x as [sx|sx| |sx mx ex], y as [sy|sy| |sy my ey]; simpl;
    try reflexivity; try (now rewrite xorb_comm).
  now rewrite xorb_comm, Pos.mul_comm, Z.add_comm.
Qed.

Lemma num_mul_comm (a b : num) : num_mul a b = num_mul b a.
Proof.
  destruct a as [m|x], b as [n|y]; simpl.
  - now rewrite Z.mul_comm.
  - destruct (F64.is_inf (F64.of_Z m)); simpl; [reflexivity|].
    now rewrite mul_comm.
  - destruct (F64.is_inf (F64.of_Z n)); simpl; [reflexivity|].
    now rewrite mul_comm.
  - now rewrite mul_comm.
Qed.

Lemma py_mul_comm (a b : pyobj) :
  offending a = false -> offending b = false -> py_mul a b = py_mul b a.
Proof.
  intros Ha Hb.
  destruct (offending_false a Ha) as (x & Ex & _).
  destruct (offending_false b Hb) as (y & Ey & _).
  rewrite (py_mul_num a b x y Ex Ey), (py_mul_num b a y x Ey Ex).
  apply num_mul_comm.
Qed.

(** X3. For arguments that pass validation the result does not depend on
    the order of the two factors of the numerator, nor on that of the two
    factors of the denominator: exchanging [R] with [f_I] gives the same
    pair or the same exception unless [R] and [f_I] are both NaN, and
    exchanging [d_I] with [lambda_env] likewise unless both are NaN.  (Of
    two NaN factors the product keeps the sign and payload of the first;
    the model has one NaN, so that case is left out.) *)
Theorem calculate_ci_symmetric (log10 : F64.float -> F64.float)
        (R f_I d_I lambda_env : pyobj) :
  offending R = false -> offending f_I = false ->
  offending d_I = false -> offending lambda_env = false ->
  (is_nan_obj R && is_nan_obj f_I = false ->
   calculate_ci log10 f_I R d_I lambda_env
   = calculate_ci log10 R f_I d_I lambda_env)
  /\ (is_nan_obj d_I && is_nan_obj lambda_env = false ->
      calculate_ci log10 R f_I lambda_env d_I
      = calculate_ci log10 R f_I d_I lambda_env).
Proof.
  intros HR Hf Hd Hl.
  assert (V1 : validate [("R", R); ("f_I", f_I); ("d_I", d_I);
                         ("lambda_env", lambda_env)] = Ok tt)
    by (apply validate_four; auto).
  assert (V2 : validate [("R", f_I); ("f_I", R); ("d_I", d_I);
                         ("lambda_env", lambda_env)] = Ok tt)
    by (apply validate_four; auto).
  assert (V3 : validate [("R", R); ("f_I", f_I); ("d_I", lambda_env);
                         ("lambda_env", d_I)] = Ok tt)
    by (apply validate_four; auto).
  unfold calculate_ci. rewrite V1, V2, V3. cbn [bind].
  rewrite (py_mul_comm f_I R Hf HR), (py_mul_comm d_I lambda_env Hd Hl).
  split; intros _; reflexivity.
Qed.

Lemma calculate_ci_symmetric_witness :
  calculate_ci log10_sample (PyFloat (F64.of_ratio 8 10)) (PyInt 3)
               (PyFloat (F64.of_ratio 1 10)) (PyFloat (F64.of_ratio 12 10))
  = calculate_ci log10_sample (PyInt 3) (PyFloat (F64.of_ratio 8 10))
                 (PyFloat (F64.of_ratio 1 10)) (PyFloat (F64.of_ratio 12 10)).
Proof.
  apply (proj1 (calculate_ci_symmetric log10_sample
                  (PyInt 3) (PyFloat (F64.of_ratio 8 10))
                  (PyFloat (F64.of_ratio 1 10)) (PyFloat (F64.of_ratio 12 10))
                  eq_refl eq_refl eq_refl eq_refl) eq_refl).
Defined.

(** ** NaN arguments *)

Lemma mul_nan_l (y : F64.float) : F64.mul F64.nan y = F64.nan.
Proof. now destruct y. Qed.

Lemma mul_nan_r (x : F64.float) : F64.mul x F64.nan = F64.nan.
Proof. now destruct x. Qed.

Lemma div_nan_l (y : F64.float) : F64.div F64.nan y = F64.nan.
Proof. now destruct y. Qed.

Lemma div_nan_r (x : F64.float) : F64.div x F64.nan = F64.nan.
Proof. now destruct x. Qed.

Lemma is_nan_obj_as_num (o : pyobj) :
  is_nan_obj o = true -> as_num o = Some (NFloat F64.nan).
Proof.
  destruct o as [n|b|x|s|]; try discriminate.
  destruct x; try discriminate. reflexivity.
Qed.

Lemma num_mul_nan (a b c : num) :
  a = NFloat F64.nan \/ b = NFloat F64.nan ->
  num_mul a b = Ok c -> c = NFloat F64.nan.
Proof.
  intros Hn H. destruct (num_mul_inv a b c H)
    as [(m & n & -> & -> & _)|(x & y & Hx & Hy & ->)].
  - destruct Hn; discriminate.
  - destruct Hn as [-> | ->].
    + simpl in Hx. injection Hx as <-. now rewrite mul_nan_l.
    + simpl in Hy. injection Hy as <-. now rewrite mul_nan_r.
Qed.

Lemma num_truediv_nan (a b : num) (q : F64.float) :
  a = NFloat F64.nan \/ b = NFloat F64.nan ->
  num_truediv a b = Ok q -> q = F64.nan.
Proof.
  intros Hn H. destruct (num_truediv_inv a b q H)
    as [(m & n & -> & -> & _)|(x & y & Hx & Hy & _ & ->)].
  - destruct Hn; discriminate.
  - destruct Hn as [-> | ->].
    + simpl in Hx. injection Hx as <-. now rewrite div_nan_l.
    + simpl in Hy. injection Hy as <-. now rewrite div_nan_r.
Qed.

(** X4. A float NaN passes validation.  A successful call with a NaN among
    its arguments returns CI = NaN and log_CI = negative infinity, on which
    [interpret_ci_minimal] answers "Invalid CI value." while
    [classify_regime] answers "collapse_gravity".  More generally, whenever
    the returned CI is not positive, log_CI is negative infinity and the
    regime is "collapse_gravity". *)
Theorem calculate_ci_nan_input (log10 : F64.float -> F64.float) :
  (forall o : pyobj, is_nan_obj o = true -> offending o = false)
  /\ (forall (R f_I d_I lambda_env : pyobj) (ci log_ci : F64.float),
        calculate_ci log10 R f_I d_I lambda_env = Ok (ci, log_ci) ->
        is_nan_obj R = true \/ is_nan_obj f_I = true \/
        is_nan_obj d_I = true \/ is_nan_obj lambda_env = true ->
        ci = F64.nan /\ log_ci = F64.neg_inf
        /\ interpret_ci_minimal (NFloat ci) = msg_invalid
        /\ classify_regime (NFloat log_ci) = "collapse_gravity")
  /\ (forall (R f_I d_I lambda_env : pyobj) (ci log_ci : F64.float),
        calculate_ci log10 R f_I d_I lambda_env = Ok (ci, log_ci) ->
        num_gt (NFloat ci) 0 = false ->
        log_ci = F64.neg_inf
        /\ classify_regime (NFloat log_ci) = "collapse_gravity"
        /\ explain_regime (NFloat log_ci) = explain_collapse_gravity).
Proof.
  split; [|split].
  - intros o Ho. apply is_nan_obj_as_num in Ho.
    unfold offending, isinstance_int_float, is_negative. now rewrite Ho.
  - intros R f_I d_I lambda_env ci log_ci H Hn.
    apply calculate_ci_ok_iff in H.
    destruct H as [(HR & Hf & Hd & Hl)
                     (den & nu & Hden & Hz & Hnu & Hci & Hlog)].
    destruct (offending_false _ HR) as (r & Er & _).
    destruct (offending_false _ Hf) as (f & Ef & _).
    destruct (offending_false _ Hd) as (d & Ed & _).
    destruct (offending_false _ Hl) as (l & El & _).
    rewrite (py_mul_num _ _ _ _ El Ed) in Hden.
    rewrite (py_mul_num _ _ _ _ Er Ef) in Hnu.
    assert (Hq : ci = F64.nan).
    { apply (num_truediv_nan nu den ci); [|exact Hci].
      destruct Hn as [Hn|[Hn|[Hn|Hn]]]; apply is_nan_obj_as_num in Hn.
      - left. apply (num_mul_nan r f nu); [left; congruence|exact Hnu].
      - left. apply (num_mul_nan r f nu); [right; congruence|exact Hnu].
      - right. apply (num_mul_nan l d den); [right; congruence|exact Hden].
      - right. apply (num_mul_nan l d den); [left; congruence|exact Hden]. }
    subst ci. simpl in Hlog. subst log_ci. repeat split.
  - intros R f_I d_I lambda_env ci log_ci H Hpos.
    apply calculate_ci_ok_iff in H.
    destruct H as [_ (den & nu & _ & _ & _ & _ & Hlog)].
    rewrite Hpos in Hlog. subst log_ci. repeat split.
Qed.

Lemma calculate_ci_nan_input_witness :
  calculate_ci log10_sample (PyFloat f1) (PyFloat F64.nan) (PyInt 2)
               (PyFloat f5)
  = Ok (F64.nan, F64.neg_inf)
  /\ F64.nan = F64.nan /\ F64.neg_inf = F64.neg_inf
  /\ interpret_ci_minimal (NFloat F64.nan) = msg_invalid
  /\ classify_regime (NFloat F64.neg_inf) = "collapse_gravity".
Proof.
  split; [reflexivity|].
  refine (proj1 (proj2 (calculate_ci_nan_input log10_sample))
            (PyFloat f1) (PyFloat F64.nan) (PyInt 2) (PyFloat f5)
            F64.nan F64.neg_inf _ _).
  - reflexivity.
  - right; left. reflexivity.
Defined.

(** ** Integer arguments *)

Lemma is_int_obj_as_num (o : pyobj) :
  is_int_obj o = true -> exists n, as_num o = Some (NInt n).
Proof. destruct o as [n|b|x|s|]; try discriminate; simpl; eauto. Qed.

(** X5. With four [int] arguments ([bool] included) a successful call
    returns a finite CI: integer arithmetic is exact and the one division
    raises [OverflowError] rather than return an infinity, so neither an
    infinity nor NaN comes out, unlike with floats. *)
Theorem calculate_ci_int_inputs_finite (log10 : F64.float -> F64.float)
        (R f_I d_I lambda_env : pyobj) (ci log_ci : F64.float) :
  is_int_obj R = true -> is_int_obj f_I = true ->
  is_int_obj d_I = true -> is_int_obj lambda_env = true ->
  calculate_ci log10 R f_I d_I lambda_env = Ok (ci, log_ci) ->
  F64.is_finite ci = true.
Proof.
  intros IR If Id Il H. apply calculate_ci_ok_iff in H.
  destruct H as [_ (den & nu & Hden & Hz & Hnu & Hci & _)].
  destruct (is_int_obj_as_num _ IR) as (r & Er).
  destruct (is_int_obj_as_num _ If) as (f & Ef).
  destruct (is_int_obj_as_num _ Id) as (d & Ed).
  destruct (is_int_obj_as_num _ Il) as (l & El).
  rewrite (py_mul_num _ _ _ _ El Ed) in Hden.
  rewrite (py_mul_num _ _ _ _ Er Ef) in Hnu.
  simpl in Hden, Hnu. injection Hden as <-. injection Hnu as <-.
  simpl in Hci.
  pose proof (int_truediv_not_nan _ _ _ Hci) as Hn.
  assert (Hi : F64.is_inf ci = false).
  { unfold int_truediv in Hci.
    destruct (l * d =? 0); [discriminate|].
    destruct (r * f =? 0); [now injection Hci as <-|].
    destruct (F64.is_inf (F64.div _ _)) eqn:I; [discriminate|].
    injection Hci as <-. exact I. }
  destruct ci; simpl in *; try discriminate; reflexivity.
Qed.

Lemma calculate_ci_int_inputs_finite_witness :
  calculate_ci log10_sample (PyInt 100) (PyBool true) (PyInt 1) (PyInt 1)
  = Ok (f100, f2)
  /\ F64.is_finite f100 = true.
Proof.
  split; [reflexivity|].
  apply (calculate_ci_int_inputs_finite
           log10_sample (PyInt 100) (PyBool true) (PyInt 1) (PyInt 1)
           f100 f2);
    reflexivity.
Defined.

(** ** Monotonicity

    [x <= y] on two doubles is the IEEE comparison [SFleb].  It orders the
    representations by sign, exponent and mantissa, which makes it
    transitive; on the doubles themselves ([valid_binary]) the comparisons
    with the literals 1, 2, 4 are comparisons in that order.  NaN is not
    below or above anything, so the fallback of [interpret_ci_minimal] does
    not occur under [x <= y]. *)

Lemma SFcompare_swap (x y : F64.float) :
  SFcompare y x = match SFcompare x y with
                  | Some c => Some (CompOpp c)
                  | None => None
                  end.
Proof.
  destruct x as [sx|sx| |sx mx ex], y as [sy|sy| |sy my ey]; simpl;
    try reflexivity; try (destruct sx; reflexivity);
    try (destruct sy; reflexivity);
    try (destruct sx, sy; reflexivity).
  destruct sx, sy; try reflexivity;
    rewrite (Z.compare_antisym ex ey);
    destruct (ex ?= ey); simpl; try reflexivity;
    rewrite !Pos.compare_cont_spec; cbn [Pos.switch_Eq];
    rewrite (Pos.compare_antisym mx my);
    destruct (mx ?= my)%positive; reflexivity.
Qed.

Lemma SFleb_trans (x y z : F64.float) :
  SFleb x y = true -> SFleb y z = true -> SFleb x z = true.
Proof.
  unfold SFleb.
  destruct x as [sx|sx| |sx mx ex], y as [sy|sy| |sy my ey],
           z as [sz|sz| |sz mz ez]; simpl;
    try discriminate; try reflexivity;
    try (destruct sx; try discriminate; try reflexivity);
    try (destruct sy; try discriminate; try reflexivity);
    try (destruct sz; try discriminate; try reflexivity);
    rewrite ?Pos.compare_cont_spec; cbn [Pos.switch_Eq];
    rewrite ?Pos2Z.inj_compare;
    repeat match goal with
           | |- context [Z.compare ?a ?b] => destruct (Z.compare_spec a b)
           end;
    simpl; try discriminate; try reflexivity; intros; lia.
Qed.

Lemma SFltb_leb_trans (x y z : F64.float) :
  SFltb x y = true -> SFleb y z = true -> SFltb x z = true.
Proof.
  unfold SFltb, SFleb.
  destruct x as [sx|sx| |sx mx ex], y as [sy|sy| |sy my ey],
           z as [sz|sz| |sz mz ez]; simpl;
    try discriminate; try reflexivity;
    try (destruct sx; try discriminate; try reflexivity);
    try (destruct sy; try discriminate; try reflexivity);
    try (destruct sz; try discriminate; try reflexivity);
    rewrite ?Pos.compare_cont_spec; cbn [Pos.switch_Eq];
    rewrite ?Pos2Z.inj_compare;
    repeat match goal with
           | |- context [Z.compare ?a ?b] => destruct (Z.compare_spec a b)
           end;
    simpl; try discriminate; try reflexivity; intros; lia.
Qed.

(** [x >= 2 ^ j] and [x > 2 ^ j] as IEEE comparisons with the literal. *)
Lemma num_ge_pow2 (x : F64.float) (j : Z) :
  valid_binary F64.prec F64.emax x = true -> 0 <= j <= 52 ->
  num_ge (NFloat x) (2 ^ j)
  = SFleb (S754_finite false 4503599627370496 (j - 52)) x.
Proof.
  intros V Hj. unfold num_ge, num_cmp, SFleb.
  rewrite (cmp_Z_pow2 x j V Hj).
  rewrite (SFcompare_swap x (S754_finite false 4503599627370496 (j - 52))).
  now destruct (SFcompare x _) as [[]|].
Qed.

Lemma num_gt_pow2 (x : F64.float) (j : Z) :
  valid_binary F64.prec F64.emax x = true -> 0 <= j <= 52 ->
  num_gt (NFloat x) (2 ^ j)
  = SFltb (S754_finite false 4503599627370496 (j - 52)) x.
Proof.
  intros V Hj. unfold num_gt, num_cmp, SFltb.
  rewrite (cmp_Z_pow2 x j V Hj).
  rewrite (SFcompare_swap x (S754_finite false 4503599627370496 (j - 52))).
  now destruct (SFcompare x _) as [[]|].
Qed.

Lemma num_ge_pow2_mono (x y : F64.float) (j : Z) :
  valid_binary F64.prec F64.emax x = true ->
  valid_binary F64.prec F64.emax y = true -> 0 <= j <= 52 ->
  SFleb x y = true ->
  num_ge (NFloat x) (2 ^ j) = true -> num_ge (NFloat y) (2 ^ j) = true.
Proof.
  intros Vx Vy Hj Hxy. rewrite !num_ge_pow2 by assumption.
  intro H. now apply SFleb_trans with x.
Qed.

Lemma num_gt_pow2_mono (x y : F64.float) (j : Z) :
  valid_binary F64.prec F64.emax x = true ->
  valid_binary F64.prec F64.emax y = true -> 0 <= j <= 52 ->
  SFleb x y = true ->
  num_gt (NFloat x) (2 ^ j) = true -> num_gt (NFloat y) (2 ^ j) = true.
Proof.
  intros Vx Vy Hj Hxy. rewrite !num_gt_pow2 by assumption.
  intro H. now apply SFltb_leb_trans with x.
Qed.

(** X6. [classify_regime] is monotone on doubles: if [x <= y] then the
    regime of [y] is at least as strong as that of [x], in the order
    collapse_gravity, fragile, strong, super_persistent. *)
Theorem classify_regime_monotone (x y : F64.float) :
  valid_binary F64.prec F64.emax x = true ->
  valid_binary F64.prec F64.emax y = true ->
  SFleb x y = true ->
  (regime_rank (classify_regime (NFloat x))
   <= regime_rank (classify_regime (NFloat y)))%nat.
Proof.
  intros Vx Vy Hxy.
  pose proof (num_ge_pow2_mono x y 2 Vx Vy ltac:(lia) Hxy) as G4.
  pose proof (num_ge_pow2_mono x y 1 Vx Vy ltac:(lia) Hxy) as G2.
  pose proof (num_ge_pow2_mono x y 0 Vx Vy ltac:(lia) Hxy) as G1.
  change (2 ^ 2) with 4 in G4. change (2 ^ 1) with 2 in G2.
  change (2 ^ 0) with 1 in G1.
  unfold classify_regime.
  destruct (num_ge (NFloat x) 4); [rewrite (G4 eq_refl); apply le_n|].
  destruct (num_ge (NFloat x) 2).
  { rewrite (G2 eq_refl). destruct (num_ge (NFloat y) 4); vm_compute; lia. }
  destruct (num_ge (NFloat x) 1).
  { rewrite (G1 eq_refl).
    destruct (num_ge (NFloat y) 4), (num_ge (NFloat y) 2); vm_compute; lia. }
  apply Nat.le_0_l.
Qed.

Lemma classify_regime_monotone_witness :
  (regime_rank (classify_regime (NFloat f0_999999))
   <= regime_rank (classify_regime (NFloat f3_999999)))%nat.
Proof.
  apply (classify_regime_monotone f0_999999 f3_999999); reflexivity.
Defined.

(** X7. [interpret_ci_minimal] is monotone on doubles: if [x <= y] then
    the message for [y] is at least as favourable as that for [x], in the
    order collapse risk, fragile equilibrium, effective continuity. *)
Theorem interpret_ci_minimal_monotone (x y : F64.float) :
  valid_binary F64.prec F64.emax x = true ->
  valid_binary F64.prec F64.emax y = true ->
  SFleb x y = true ->
  (interpretation_rank (interpret_ci_minimal (NFloat x))
   <= interpretation_rank (interpret_ci_minimal (NFloat y)))%nat.
Proof.
  intros Vx Vy Hxy.
  pose proof (num_gt_pow2_mono x y 0 Vx Vy ltac:(lia) Hxy) as G.
  pose proof (num_ge_pow2_mono x y 0 Vx Vy ltac:(lia) Hxy) as E.
  change (2 ^ 0) with 1 in G, E.
  unfold interpret_ci_minimal.
  destruct (num_gt (NFloat x) 1) eqn:Gx; [rewrite (G eq_refl); apply le_n|].
  destruct (num_eq (NFloat x) 1) eqn:Ex.
  - assert (Hy : num_ge (NFloat y) 1 = true).
    { apply E. unfold num_ge, num_eq in *.
      now destruct (num_cmp (NFloat x) 1) as [[]|]. }
    unfold num_ge, num_gt, num_eq in *.
    destruct (num_cmp (NFloat y) 1) as [[]|]; try discriminate;
      vm_compute; lia.
  - destruct (num_lt (NFloat x) 1); apply Nat.le_0_l.
Qed.

Lemma interpret_ci_minimal_monotone_witness :
  (interpretation_rank (interpret_ci_minimal (NFloat f1))
   <= interpretation_rank (interpret_ci_minimal (NFloat f100)))%nat.
Proof.
  apply (interpret_ci_minimal_monotone f1 f100); reflexivity.
Defined.

(** ** The label behind an explanation *)

(** X8. The four explanatory sentences are pairwise distinct:
    [explain_regime] returns the same text for two arguments only if
    [classify_regime] gives them the same label, so the label can be read
    back from the explanation. *)
Theorem explain_regime_injective (x y : num) :
  explain_regime x = explain_regime y ->
  classify_regime x = classify_regime y.
Proof.
  unfold explain_regime.
  destruct (classify_regime_cases x) as [Hx|[Hx|[Hx|Hx]]];
    destruct (classify_regime_cases y) as [Hy|[Hy|[Hy|Hy]]];
    rewrite Hx, Hy; try reflexivity;
    intro H; vm_compute in H; discriminate H.
Qed.

Lemma explain_regime_injective_witness :
  classify_regime (NFloat f3_999999) = classify_regime (NInt 2).
Proof.
  apply (explain_regime_injective (NFloat f3_999999) (NInt 2)).
  reflexivity.
Defined.
